(** * The link danger-zone check of the story editor's checklist

    A shallow embedding of
    [assets/src/edit-story/app/checklist/utils/isLinkBelowLimit.js].

    JavaScript numbers are IEEE 754 binary64 values, so they are modelled by
    Rocq's primitive [float]: [+], [-], [*], [/] and the comparisons of the
    source are the primitive operations, which round to nearest, ties to even,
    exactly as the language prescribes.  [Math.sin] and [Math.cos] are
    supplied by the host engine; the language fixes their value at a few
    arguments only, so the development is parameterised by them and assumes
    of them, where it needs to, what the language prescribes.  The page
    constants are imported from a module that is not part of this file: the
    development is parameterised by them as well. *)

From Stdlib Require Import ZArith Bool List String Floats Lia.
Import ListNotations.

Set Warnings "-inexact-float".
Local Open Scope float_scope.

(** ** Elements as the checklist sees them *)

(** [element.link], when present, is an object whose [url] may be missing. *)
Record Link := { url : option string }.

Record Element := {
  y : float;
  width : float;
  height : float;
  rotationAngle : float;
  link : option Link
}.

(** ** The fragments of JavaScript the function relies on *)

Module JS.

(** [Math.PI], the double nearest to the circle constant. *)
Definition Math_PI : float := 0x1.921fb54442d18p+1.

(** [a?.f]: [undefined] when [a] is, the member otherwise. *)
Definition optional_chain {A B : Type} (a : option A) (f : A -> option B)
  : option B :=
  match a with
  | None => None
  | Some v => f v
  end.

(** [!v] for [v] that is [undefined] or the length of a string. *)
Definition not_length (v : option nat) : bool :=
  match v with
  | None => true
  | Some n => Nat.eqb n 0
  end.

(** [ToNumber] of a boolean, as [>] applies it to its operands. *)
Definition Number_of_bool (b : bool) : float := if b then 1 else 0.

(** [a > b] on numbers. *)
Definition gt (a b : float) : bool := b <? a.

(** [Boolean(v)] for [v] that is [undefined] or a number: the zeros and
    NaN are the falsy numbers. *)
Definition truthy (x : float) : bool := negb (is_zero x || is_nan x).

Definition Boolean (v : option float) : bool :=
  match v with
  | None => false
  | Some x => truthy x
  end.

(** The language's SameValueZero on numbers: numeric equality, which does
    not tell the two zeros apart, with NaN equal to itself. *)
Definition SameValueZero (a b : float) : bool :=
  (a =? b) || (is_nan a && is_nan b).

End JS.

(** ** What the module imports

    [constants.js] is not part of the verified file: its three exports are
    the fields of [Constants].  [Math.sin] and [Math.cos] belong to the host
    engine: they are the fields of [Math]. *)

Class Constants := {
  PAGE_WIDTH : float;
  PAGE_HEIGHT : float;
  FULLBLEED_RATIO : float
}.

Class Math := {
  Math_sin : float -> float;
  Math_cos : float -> float
}.

(** What the language prescribes for the two functions: NaN and the
    infinities give NaN, the sine of a zero is that zero and the cosine of a
    zero is one.  Elsewhere an engine returns an approximation of its own
    choosing. *)
Record Conforming (M : Math) : Prop := {
  sin_nan : Math_sin nan = nan;
  sin_zero : forall x, is_zero x = true -> Math_sin x = x;
  sin_infinity : forall x, is_infinity x = true -> Math_sin x = nan;
  cos_nan : Math_cos nan = nan;
  cos_zero : forall x, is_zero x = true -> Math_cos x = 1;
  cos_infinity : forall x, is_infinity x = true -> Math_cos x = nan
}.

(** ** The function *)

Section LinkZone.

Context {C : Constants} {M : Math}.

Definition FULLBLEED_HEIGHT : float := PAGE_WIDTH / FULLBLEED_RATIO.

Definition DANGER_ZONE_HEIGHT : float := (FULLBLEED_HEIGHT - PAGE_HEIGHT) / 2.

Definition getYCoordinatesByAngle (e : Element) : list float :=
  let radians := (rotationAngle e * JS.Math_PI) / 180 in
  [ (* Upper left *)
    y e + height e
      + (width e / -2) * Math_sin radians
      + (height e / -2) * Math_cos radians;
    (* Upper right *)
    y e + height e
      + (width e / 2) * Math_sin radians
      + (height e / -2) * Math_cos radians;
    (* Bottom right *)
    y e + height e
      + (width e / 2) * Math_sin radians
      + (height e / 2) * Math_cos radians;
    (* Bottom left *)
    y e + height e
      + (width e / -2) * Math_sin radians
      + (height e / 2) * Math_cos radians ].

Definition isLinkBelowLimit (element : Element) : bool :=
  if JS.gt
       (JS.Number_of_bool
          (JS.not_length
             (JS.optional_chain (JS.optional_chain (link element) url)
                (fun s => Some (String.length s)))))
       0
  then false
  else
    let limit := FULLBLEED_HEIGHT * 0.8 in
    let points := getYCoordinatesByAngle element in
    JS.Boolean (find (fun y => JS.gt (y + DANGER_ZONE_HEIGHT) limit) points).

(** *** Names for the parts of [isLinkBelowLimit] *)

(** [element.link?.url?.length] *)
Definition url_length (e : Element) : option nat :=
  JS.optional_chain
    (JS.optional_chain (link e) url)
    (fun s => Some (String.length s)).

(** [!element.link?.url?.length > 0]: the negation binds tighter than the
    comparison, so it is a boolean that is compared with [0]. *)
Definition no_link_url (e : Element) : bool :=
  JS.gt (JS.Number_of_bool (JS.not_length (url_length e))) 0.

(** [const limit = FULLBLEED_HEIGHT * 0.8] *)
Definition limit : float := FULLBLEED_HEIGHT * 0.8.

(** The callback of [points.find]. *)
Definition exceeds (y : float) : bool :=
  JS.gt (y + DANGER_ZONE_HEIGHT) limit.

End LinkZone.

(** ** The specification's reading of the function, for comparison *)

Module Spec.
Section Spec.

Context {C : Constants} {M : Math}.

(** "Let radians = rotationAngle * pi / 180." *)
Definition radians (e : Element) : float :=
  rotationAngle e * JS.Math_PI / 180.

(** "cornerY = y + height + dx.sin(radians) + dy.cos(radians)" *)
Definition cornerY (e : Element) (dx dy : float) : float :=
  y e + height e + dx * Math_sin (radians e) + dy * Math_cos (radians e).

(** The local offsets (-w/2,-h/2), (w/2,-h/2), (w/2,h/2), (-w/2,h/2). *)
Definition offsets (e : Element) : list (float * float) :=
  let w := width e in
  let h := height e in
  [ (- (w / 2), - (h / 2));
    (w / 2, - (h / 2));
    (w / 2, h / 2);
    (- (w / 2), h / 2) ].

Definition corners (e : Element) : list float :=
  map (fun d => cornerY e (fst d) (snd d)) (offsets e).

(** The link is present and its url is a non-empty string. *)
Definition has_link_url (e : Element) : bool :=
  match link e with
  | Some {| url := Some (String _ _) |} => true
  | _ => false
  end.

(** The values a non-rotated element's corners take, written as the
    specification first writes them ("y + height - height/2" and
    "y + height + height/2") and as it then simplifies them. *)
Definition top (e : Element) : float := y e + height e - height e / 2.
Definition bottom (e : Element) : float := y e + height e + height e / 2.
Definition top_simplified (e : Element) : float := y e + height e / 2.
Definition bottom_simplified (e : Element) : float := y e + 1.5 * height e.


(** The predicate computed from two corner values, with no rotation. *)
Definition direct (t b : float) (e : Element) : bool :=
  has_link_url e && (exceeds t || exceeds b).

End Spec.
End Spec.

(** ** Concrete instances *)

(** Modelled from the spec: the exports of [constants.js], a file that is not
    among the sources, with the values of the specification's concrete
    scenarios ("pageWidth = 412, pageHeight = 732, fullbleedRatio = 9/16"). *)
Definition scenario_constants : Constants :=
  {| PAGE_WIDTH := 412; PAGE_HEIGHT := 732; FULLBLEED_RATIO := 9 / 16 |}.

(** A geometry in which the danger zone alone is higher than the limit.  No
    page is like this; it only serves to exhibit what [Boolean] does to a
    corner at zero. *)
Definition degenerate_constants : Constants :=
  {| PAGE_WIDTH := 412; PAGE_HEIGHT := -1000; FULLBLEED_RATIO := 9 / 16 |}.

Definition example_link : option Link :=
  Some {| url := Some "https://example.com"%string |}.

(** The element of the first scenario, with and without its link. *)
Definition scenario_element : Element :=
  {| y := 600; width := 100; height := 100; rotationAngle := 0;
     link := example_link |}.

Definition unlinked_element : Element :=
  {| y := 600; width := 100; height := 100; rotationAngle := 0;
     link := None |}.

(** Elements on which binary64 arithmetic shows. *)
Definition rounded_element : Element :=
  {| y := 0.1; width := 100; height := 0.2; rotationAngle := 0;
     link := example_link |}.

Definition absorbed_element : Element :=
  {| y := 1e16; width := 100; height := 1; rotationAngle := 0;
     link := example_link |}.

Definition threshold_element : Element :=
  {| y := 585.2833333333334; width := 100; height := 0.3; rotationAngle := 0;
     link := example_link |}.

Definition unbounded_element : Element :=
  {| y := 600; width := infinity; height := 100; rotationAngle := 0;
     link := example_link |}.

Definition nan_element : Element :=
  {| y := nan; width := 100; height := 100; rotationAngle := 0;
     link := example_link |}.

(** Elements of width and height zero. *)
Definition origin_point : Element :=
  {| y := 0; width := 0; height := 0; rotationAngle := 0;
     link := example_link |}.

Definition low_point : Element :=
  {| y := 700; width := 0; height := 0; rotationAngle := 45;
     link := example_link |}.

Definition spinning_point : Element :=
  {| y := 700; width := 0; height := 0; rotationAngle := 1e308;
     link := example_link |}.

Definition nan_point : Element :=
  {| y := 700; width := 0; height := 0; rotationAngle := nan;
     link := example_link |}.

(** Elements whose answer changes after a full turn: a very wide one, and
    one of ordinary size whose bottom edge sits at the limit. *)
Definition wide_element : Element :=
  {| y := 500; width := 1e18; height := 0; rotationAngle := 0;
     link := example_link |}.

Definition edge_element : Element :=
  {| y := 435.7333333333333; width := 1000; height := 100;
     rotationAngle := 0; link := example_link |}.

(** A small engine that meets [Conforming]: the prescribed values at NaN, the
    infinities and the zeros, and elsewhere a Taylor polynomial evaluated after
    reduction of the argument to one period.  The period is subtracted in two
    parts, the double nearest to it and the remainder, so that the sine of
    [2 * Math.PI] is the -2.4492935982947064e-16 that the engines in use
    return, and not zero. *)
Module Reference.

Definition two_pi : float := 2 * JS.Math_PI.
Definition two_pi_rest : float := 0x1.1a62633145c07p-52.

(** The nearest integer, for arguments below 2^52 in magnitude. *)
Definition nearest (x : float) : float :=
  if 0x1p52 <=? abs x then x
  else if x <? 0 then (x - 0x1p52) + 0x1p52
  else (x + 0x1p52) - 0x1p52.

Definition reduce (x : float) : float :=
  let k := nearest (x / two_pi) in
  (x - k * two_pi) - k * two_pi_rest.

(** Horner evaluation of the series in [r * r], [n] terms from index [k]. *)
Fixpoint series (n : nat) (k : float) (r2 : float) : float :=
  match n with
  | O => 1
  | S n' => 1 - r2 / (k * (k + 1)) * series n' (k + 2) r2
  end.

Definition sin (x : float) : float :=
  if is_nan x || is_infinity x then nan
  else if is_zero x then x
  else let r := reduce x in r * series 12 2 (r * r).

Definition cos (x : float) : float :=
  if is_nan x || is_infinity x then nan
  else if is_zero x then 1
  else let r := reduce x in series 12 1 (r * r).

Definition math : Math := {| Math_sin := sin; Math_cos := cos |}.

End Reference.

(** ** The grid view of the pages

    A shallow embedding of [assets/src/edit-story/components/canvas/gridview/
    index.js]: the thumbnail size control, the zoom level it drives, the
    reorder handler and the tree of separators and previews rendered for the
    pages.  Styling is left out; an element is the record of the props it is
    given. *)

(** *** The library functions the component calls *)

Module Ecma.

Definition is_positive_zero (x : float) : bool :=
  is_zero x && negb (get_sign x).

Definition is_negative_zero (x : float) : bool :=
  is_zero x && get_sign x.

(** [Math.max]: NaN if an argument is NaN; otherwise the arguments are
    visited from -Infinity, +0 replacing a highest value of -0 and a greater
    number replacing the highest value. *)
Definition max_step (highest number : float) : float :=
  let highest :=
    if is_positive_zero number && is_negative_zero highest then 0
    else highest in
  if JS.gt number highest then number else highest.

Definition Math_max (args : list float) : float :=
  if existsb is_nan args then nan
  else fold_left max_step args neg_infinity.

(** [Math.min], likewise from +Infinity, -0 replacing a lowest value of +0. *)
Definition min_step (lowest number : float) : float :=
  let lowest :=
    if is_negative_zero number && is_positive_zero lowest then -0
    else lowest in
  if number <? lowest then number else lowest.

Definition Math_min (args : list float) : float :=
  if existsb is_nan args then nan
  else fold_left min_step args infinity.

(** [array.map(callback)], whose callback receives the element and its
    index. *)
Fixpoint map_from {A B : Type} (callback : A -> Z -> B) (index : Z)
    (array : list A) : list B :=
  match array with
  | [] => []
  | a :: rest => callback a index :: map_from callback (index + 1)%Z rest
  end.

Definition Array_map {A B : Type} (callback : A -> Z -> B) (array : list A)
  : list B :=
  map_from callback 0%Z array.

(** [array[i]] for an integer [i]: [undefined] outside of the array. *)
Definition Array_get {A : Type} (array : list A) (i : Z) : option A :=
  if (i <? 0)%Z then None else nth_error array (Z.to_nat i).

End Ecma.

(** *** The handlers' effects

    The reorder handler reads a member of a value that may be [undefined],
    which throws, and dispatches actions of the story; a computation takes
    the actions dispatched so far and returns a completion with the actions
    dispatched after it. *)

Module Effect.

Inductive Action :=
| arrangePage (pageId : string) (position : Z)
| setCurrentPage (pageId : string).

Inductive Completion (A : Type) :=
| Normal (value : A)
| Throw_TypeError.

Arguments Normal {A} value.
Arguments Throw_TypeError {A}.

Definition M (A : Type) : Type := list Action -> Completion A * list Action.

Definition ret {A : Type} (a : A) : M A := fun log => (Normal a, log).

Definition bind {A B : Type} (m : M A) (k : A -> M B) : M B :=
  fun log =>
    match m log with
    | (Normal a, log') => k a log'
    | (Throw_TypeError, log') => (Throw_TypeError, log')
    end.

Definition throw {A : Type} : M A := fun log => (Throw_TypeError, log).

Definition dispatch (a : Action) : M unit :=
  fun log => (Normal tt, log ++ [a]).

(** [value.member]: a TypeError when [value] is [undefined]. *)
Definition member {A B : Type} (value : option A) (get : A -> B) : M B :=
  match value with
  | Some v => ret (get v)
  | None => throw
  end.

End Effect.

Notation "x <- m ;; k" := (Effect.bind m (fun x => k))
  (at level 61, m at next level, right associativity).
Notation "m ;;; k" := (Effect.bind m (fun _ => k))
  (at level 61, right associativity).

(** *** The thumbnail size control *)

Module ThumbnailSizeControl.

Definition max : float := 3.
Definition min : float := 1.
Definition step : float := 1.

(** The value [updateRangeValue(addition)] passes to [onChange]. *)
Definition updateRangeValue (value addition : float) : float :=
  Ecma.Math_min [max; Ecma.Math_max [min; value + addition]].

(** The text chosen by the [switch], by its message. *)
Definition valueText (value : float) : string :=
  if value =? max then "Large"%string
  else if value =? min then "Small"%string
  else "Medium"%string.

(** [disabled] of the button that decreases and of the one that increases. *)
Definition decreaseDisabled (value : float) : bool := value =? min.
Definition increaseDisabled (value : float) : bool := value =? max.

End ThumbnailSizeControl.

(** *** The elements rendered *)

Module PageSeparator.
Record props := {
  position : Z;
  width : float;
  height : float;
  isFirst : bool
}.
End PageSeparator.

Module PagePreview.
(** [sprintf(__(message), argument)] *)
Record label := { message : string; argument : Z }.

Record props := {
  ariaLabel : label;
  isActive : bool;
  index : Z;
  width : float;
  height : float;
  dragIndicatorOffset : float
}.
End PagePreview.

(** What [../pagepreview] exports besides the component. *)
Class PagePreviewFrame := {
  THUMB_FRAME_HEIGHT : float;
  THUMB_FRAME_WIDTH : float
}.

Module GridView.

Record Page := { id : string }.

(** A child of a [PagePreviewContainer]: a separator, or a
    [ReorderableItem] at a position around a preview. *)
Inductive Node :=
| Separator (p : PageSeparator.props)
| ReorderableItem (position : Z) (child : PagePreview.props).

Definition PREVIEW_WIDTH : float := 90.
Definition GRID_GAP : float := 20.

Section GridView.

Context {C : Constants} {F : PagePreviewFrame}.

Definition PREVIEW_HEIGHT : float := (PREVIEW_WIDTH * PAGE_HEIGHT) / PAGE_WIDTH.

(** [useState(2)] *)
Definition initialZoomLevel : float := 2.

(** What reaches [setZoomLevel]: a click on one of the two buttons, or a
    change of the range input, which carries [Number(evt.target.value)]. *)
Inductive Event :=
| DecreaseClick
| IncreaseClick
| RangeChange (value : float).

Definition setZoomLevel (zoomLevel : float) (ev : Event) : float :=
  match ev with
  | DecreaseClick =>
      ThumbnailSizeControl.updateRangeValue zoomLevel
        (- ThumbnailSizeControl.step)
  | IncreaseClick =>
      ThumbnailSizeControl.updateRangeValue zoomLevel
        ThumbnailSizeControl.step
  | RangeChange value => value
  end.

(** The zoom levels of the range input ([min], [max] and [step] of the
    control), and the events whose value is one of them. *)
Definition levels : list float := [1; 2; 3].

Definition from_range (ev : Event) : Prop :=
  match ev with
  | RangeChange value => In value levels
  | _ => True
  end.

(** [onPositionChange] of the wrapper. *)
Definition onPositionChange (pages : list Page) (oldPos newPos : Z)
  : Effect.M unit :=
  pageId <- Effect.member (Ecma.Array_get pages oldPos) id ;;
  Effect.dispatch (Effect.arrangePage pageId newPos) ;;;
  Effect.dispatch (Effect.setCurrentPage pageId).

(** The callback of [pages.map]: the children of one
    [PagePreviewContainer]. *)
Definition renderPage (currentPageIndex : Z) (zoomLevel : float)
    (page : Page) (index : Z) : list Node :=
  let width := zoomLevel * PREVIEW_WIDTH + THUMB_FRAME_WIDTH in
  let height := zoomLevel * PREVIEW_HEIGHT + THUMB_FRAME_HEIGHT in
  let isCurrentPage := (index =? currentPageIndex)%Z in
  (if (index =? 0)%Z
   then [Separator
           {| PageSeparator.position := 0;
              PageSeparator.width := width / 2;
              PageSeparator.height := height;
              PageSeparator.isFirst := true |}]
   else [])
  ++ [ReorderableItem index
        {| PagePreview.ariaLabel :=
             if isCurrentPage
             then {| PagePreview.message := "Page %s (current page)";
                     PagePreview.argument := index + 1 |}
             else {| PagePreview.message := "Page %s";
                     PagePreview.argument := index + 1 |};
           PagePreview.isActive := isCurrentPage;
           PagePreview.index := index;
           PagePreview.width := width;
           PagePreview.height := height;
           PagePreview.dragIndicatorOffset := GRID_GAP / 2 |}]
  ++ [Separator
        {| PageSeparator.position := index + 1;
           PageSeparator.width := width / 2;
           PageSeparator.height := height;
           PageSeparator.isFirst := false |}].

(** The children of the wrapper. *)
Definition children (pages : list Page) (currentPageIndex : Z)
    (zoomLevel : float) : list (list Node) :=
  Ecma.Array_map (renderPage currentPageIndex zoomLevel) pages.

End GridView.

(** The separators and the previews of a rendering, in document order. *)
Definition separators (containers : list (list Node))
  : list PageSeparator.props :=
  flat_map
    (fun n => match n with Separator p => [p] | ReorderableItem _ _ => [] end)
    (List.concat containers).

Definition previews (containers : list (list Node))
  : list PagePreview.props :=
  flat_map
    (fun n => match n with Separator _ => [] | ReorderableItem _ c => [c] end)
    (List.concat containers).

Definition item_positions (containers : list (list Node)) : list Z :=
  flat_map
    (fun n => match n with Separator _ => [] | ReorderableItem q _ => [q] end)
    (List.concat containers).

End GridView.

(** ** The call, on a value that may be [undefined]

    The functions above take an element object.  A caller can also pass
    [undefined] or [null]: [isLinkBelowLimit] then reads a member of it, and
    [getYCoordinatesByAngle] destructures it, and each of the two throws a
    TypeError on such a value.  Here the argument is an element object or
    nothing, and the call is a computation that completes normally or
    throws. *)

Module Throwing.
Section Throwing.

Context {C : Constants} {M : Math}.

(** The parameter [{ y, width, height, rotationAngle }]: the four members
    are read off the argument before the body runs. *)
Definition getYCoordinatesByAngle (element : option Element)
  : Effect.M (list float) :=
  y <- Effect.member element y ;;
  width <- Effect.member element width ;;
  height <- Effect.member element height ;;
  rotationAngle <- Effect.member element rotationAngle ;;
  let radians := (rotationAngle * JS.Math_PI) / 180 in
  Effect.ret
    [ (* Upper left *)
      y + height
        + (width / -2) * Math_sin radians
        + (height / -2) * Math_cos radians;
      (* Upper right *)
      y + height
        + (width / 2) * Math_sin radians
        + (height / -2) * Math_cos radians;
      (* Bottom right *)
      y + height
        + (width / 2) * Math_sin radians
        + (height / 2) * Math_cos radians;
      (* Bottom left *)
      y + height
        + (width / -2) * Math_sin radians
        + (height / 2) * Math_cos radians ].

Definition isLinkBelowLimit (element : option Element) : Effect.M bool :=
  link <- Effect.member element link ;;
  if JS.gt
       (JS.Number_of_bool
          (JS.not_length
             (JS.optional_chain (JS.optional_chain link url)
                (fun s => Some (String.length s)))))
       0
  then Effect.ret false
  else
    let limit := FULLBLEED_HEIGHT * 0.8 in
    points <- getYCoordinatesByAngle element ;;
    Effect.ret
      (JS.Boolean (find (fun y => JS.gt (y + DANGER_ZONE_HEIGHT) limit) points)).

End Throwing.
End Throwing.

(** ** Bounds on the sine and the cosine

    [Math.sin] and [Math.cos] are the engine's: what the development can say
    of the corners at an angle it says from bounds within which the two
    values lie.  The corner computation is monotone in each of them, so the
    bounds give the least and the greatest value of each corner. *)

Module Bracket.

(** Bounds on the sine and on the cosine of an angle. *)
Record bounds := {
  sin_lo : float;
  sin_hi : float;
  cos_lo : float;
  cos_hi : float
}.


(** The least and the greatest of the products [d * t] for [t] between [lo]
    and [hi]. *)
Definition least (d lo hi : float) : float :=
  if d <? 0 then d * hi else d * lo.

Definition greatest (d lo hi : float) : float :=
  if d <? 0 then d * lo else d * hi.

(** The offsets of the four corners, as the source divides them and in its
    order. *)
Definition offsets (e : Element) : list (float * float) :=
  [ (width e / -2, height e / -2);
    (width e / 2, height e / -2);
    (width e / 2, height e / 2);
    (width e / -2, height e / 2) ].


Definition lowest (b : bounds) (e : Element) (d : float * float) : float :=
  y e + height e
    + least (fst d) (sin_lo b) (sin_hi b)
    + least (snd d) (cos_lo b) (cos_hi b).

Definition highest (b : bounds) (e : Element) (d : float * float) : float :=
  y e + height e
    + greatest (fst d) (sin_lo b) (sin_hi b)
    + greatest (snd d) (cos_lo b) (cos_hi b).

Section Settled.

Context {C : Constants}.

(** The bounds settle the answer: the extreme values of the corners are
    finite, and either some corner is above the limit at its lowest or no
    corner is at its highest. *)
Definition settled (b : bounds) (e : Element) : bool :=
  forallb (fun d => is_finite (lowest b e d) && is_finite (highest b e d))
    (offsets e)
  && (existsb (fun d => exceeds (lowest b e d)) (offsets e)
      || negb (existsb (fun d => exceeds (highest b e d)) (offsets e))).

End Settled.

End Bracket.

(** The sine and cosine of the reference engine before and after a full turn
    from zero: the sine goes from 0 to -2.4492935982947064e-16, the cosine
    is 1 at both. *)
Definition full_turn_bounds : Bracket.bounds :=
  {| Bracket.sin_lo := -2.4492935982947064e-16; Bracket.sin_hi := 0;
     Bracket.cos_lo := 1; Bracket.cos_hi := 1 |}.

(** The least and the greatest values a sine and a cosine can take. *)
Definition unit_bounds : Bracket.bounds :=
  {| Bracket.sin_lo := -1; Bracket.sin_hi := 1;
     Bracket.cos_lo := -1; Bracket.cos_hi := 1 |}.

(** An element that reaches across the limit: its top corners are above it
    on the page and its bottom corners below. *)
Definition overlapping_element : Element :=
  {| y := 500; width := 100; height := 100; rotationAngle := 0;
     link := example_link |}.

(** ** Numbers as integers

    A finite double is an integer number of units of [2 ^ -1074], and the
    exact product of two is an integer number of units of [2 ^ -2148].  The
    rounding of the library is stated here on those integers. *)

Module Exact.

Local Open Scope Z_scope.




(** The value that stands for the infinities, and the rounding of a signed
    value with overflow. *)
Definition top (K : Z) : Z := 2 ^ (1024 + K).


(** The mantissa and the round bit of a shift record are one integer, the
    mantissa with one more bit; [shifted a] relates a record to the record
    [a] shifts to the right later. *)
Definition tail (mrs : shr_record) : Z := 2 * shr_m mrs + Z.b2z (shr_r mrs).


(** The value of a number, in units of [2 ^ - K]. *)
Definition Zv (K : Z) (X : spec_float) : Z :=
  match X with
  | S754_zero _ | S754_nan => 0
  | S754_infinity s => cond_Zopp s (top K)
  | S754_finite s m e => cond_Zopp s (Z.pos m * 2 ^ (e + K))
  end.


(** The value of a double, in units of [2 ^ -1074]. *)
Definition value (x : float) : Z := Zv 1074 (Prim2SF x).

End Exact.

(** ** Facts about rounding

    The library specifies each primitive operation by a function on
    [spec_float]; these are the properties of those functions that the
    arithmetic of the corner computation needs. *)

Module Rounding.

Local Open Scope Z_scope.

(** *** The sign is carried through rounding unchanged *)

Lemma binary_round_aux_opp (s : bool) (m e : Z) (l : location) :
  SFopp (binary_round_aux prec emax s m e l) =
  binary_round_aux prec emax (negb s) m e l.
Proof.
  unfold binary_round_aux.
  destruct (shr_fexp prec emax m e l) as [mrs' e'].
  destruct (shr_fexp prec emax _ e' loc_Exact) as [mrs'' e''].
  destruct (shr_m mrs''); try reflexivity.
  now destruct (Z.leb e'' (emax - prec)).
Qed.

Lemma SFdiv_neg_two (X : spec_float) :
  SF64div X (Prim2SF (-2)%float) = SFopp (SF64div X (Prim2SF 2%float)).
Proof.
  change (Prim2SF (-2)%float) with (S754_finite true 4503599627370496 (-51)).
  change (Prim2SF 2%float) with (S754_finite false 4503599627370496 (-51)).
  destruct X as [s|s| |s m e]; try reflexivity.
  - simpl. now rewrite xorb_true_r, xorb_false_r.
  - simpl. now rewrite xorb_true_r, xorb_false_r.
  - unfold SF64div, SFdiv.
    destruct (SFdiv_core_binary prec emax (Z.pos m) e
                (Z.pos 4503599627370496) (-51)) as [[mz ez] lz].
    rewrite binary_round_aux_opp.
    now rewrite xorb_true_r, xorb_false_r.
Qed.

(** *** Multiplying by one *)

Lemma canonical_fexp (m : positive) (e : Z) :
  bounded prec emax m e = true ->
  fexp prec emax (Z.pos (digits2_pos m) + e) = e /\ e <= emax - prec.
Proof.
  unfold bounded, canonical_mantissa. intros H.
  apply andb_true_iff in H. destruct H as [H1 H2].
  apply Z.eqb_eq in H1. apply Z.leb_le in H2. now split.
Qed.

Lemma shr_fexp_canonical (m : positive) (e : Z) :
  bounded prec emax m e = true ->
  shr_fexp prec emax (Z.pos m) e loc_Exact =
  ({| shr_m := Z.pos m; shr_r := false; shr_s := false |}, e).
Proof.
  intros H. apply canonical_fexp in H. destruct H as [H _].
  unfold shr_fexp. cbn [Zdigits2]. rewrite H, Z.sub_diag. reflexivity.
Qed.

Lemma shr_fexp_scaled (m : positive) (e : Z) :
  bounded prec emax m e = true ->
  shr_fexp prec emax (Z.pos (m * 4503599627370496)) (e + -52) loc_Exact =
  ({| shr_m := Z.pos m; shr_r := false; shr_s := false |}, e).
Proof.
  intros H. apply canonical_fexp in H. destruct H as [H _].
  unfold shr_fexp. rewrite Pos.mul_comm.
  cbn [Pos.mul Zdigits2 digits2_pos].
  rewrite !Pos2Z.inj_succ.
  replace (_ + (e + -52)) with (Z.pos (digits2_pos m) + e) by lia.
  rewrite H. replace (e - (e + -52)) with 52 by lia.
  cbn. f_equal. lia.
Qed.

Lemma SFmul_one_r (X : spec_float) :
  valid_binary X = true -> SF64mul X (Prim2SF 1%float) = X.
Proof.
  change (Prim2SF 1%float) with (S754_finite false 4503599627370496 (-52)).
  destruct X as [s|s| |s m e]; intros H; cbn [SF64mul SFmul];
    rewrite ?xorb_false_r; try reflexivity.
  cbn [valid_binary] in H.
  unfold binary_round_aux.
  rewrite (shr_fexp_scaled m e H). cbn [shr_m loc_of_shr_record round_nearest_even].
  rewrite (shr_fexp_canonical m e H). cbn [shr_m].
  apply canonical_fexp in H. destruct H as [_ H].
  apply Z.leb_le in H. now rewrite H.
Qed.

(** *** Rounding does not overflow below the largest exponent *)

Lemma digits2_pos_lower (p : positive) :
  2 ^ (Z.pos (digits2_pos p) - 1) <= Z.pos p.
Proof.
  assert (Hstep : forall q : positive,
             2 ^ (Z.pos (Pos.succ (digits2_pos q)) - 1) =
             2 * 2 ^ (Z.pos (digits2_pos q) - 1)).
  { intros q. rewrite Pos2Z.inj_succ, <- Z.pow_succ_r by lia. f_equal. lia. }
  induction p as [p IH|p IH|]; cbn [digits2_pos].
  - rewrite Hstep. lia.
  - rewrite Hstep. lia.
  - reflexivity.
Qed.

Lemma digits2_pos_upper (p : positive) :
  Z.pos p < 2 ^ Z.pos (digits2_pos p).
Proof.
  induction p as [p IH|p IH|]; cbn [digits2_pos].
  - rewrite Pos2Z.inj_succ, Z.pow_succ_r by lia. lia.
  - rewrite Pos2Z.inj_succ, Z.pow_succ_r by lia. lia.
  - reflexivity.
Qed.

Lemma Zdigits2_le (m j : Z) :
  0 <= m < 2 ^ j -> 0 <= j -> 0 <= Zdigits2 m <= j.
Proof.
  intros [H0 Hj] Hj0. destruct m as [|p|p]; cbn [Zdigits2]; try lia.
  split; [lia|].
  pose proof (digits2_pos_lower p) as Hl.
  assert (H : 2 ^ (Z.pos (digits2_pos p) - 1) < 2 ^ j) by lia.
  apply Z.pow_lt_mono_r_iff in H; lia.
Qed.

Lemma shr_1_m (mrs : shr_record) :
  0 <= shr_m mrs -> shr_m (shr_1 mrs) = shr_m mrs / 2.
Proof.
  destruct mrs as [m r s]. cbn [shr_m shr_1]. intros H.
  destruct m as [|[p|p|]|p]; cbn [shr_m]; try reflexivity; try lia.
  - rewrite Pos2Z.inj_xI. apply Z.div_unique with 1; lia.
  - rewrite Pos2Z.inj_xO. apply Z.div_unique with 0; lia.
Qed.

Lemma shr_m_iter (p : positive) (mrs : shr_record) :
  0 <= shr_m mrs ->
  shr_m (iter_pos shr_1 p mrs) = shr_m mrs / 2 ^ Z.pos p.
Proof.
  revert mrs.
  assert (Hnn : forall mrs, 0 <= shr_m mrs -> 0 <= shr_m mrs / 2).
  { intros mrs H. apply Z.div_pos; lia. }
  induction p as [p IH|p IH|]; intros mrs H; cbn [iter_pos].
  - assert (H1 : 0 <= shr_m (shr_1 mrs)) by (rewrite shr_1_m; auto).
    assert (H2 : 0 <= shr_m (iter_pos shr_1 p (shr_1 mrs))).
    { rewrite IH by exact H1. apply Z.div_pos; lia. }
    rewrite IH, IH, shr_1_m by assumption.
    rewrite !Z.div_div by lia. f_equal.
    rewrite Pos2Z.inj_xI.
    replace (2 * Z.pos p + 1) with (1 + Z.pos p + Z.pos p) by lia.
    rewrite !Z.pow_add_r by lia. change (2 ^ 1) with 2. lia.
  - assert (H1 : 0 <= shr_m (iter_pos shr_1 p mrs)).
    { rewrite IH by exact H. apply Z.div_pos; lia. }
    rewrite IH, IH by assumption.
    rewrite Z.div_div by lia. f_equal.
    rewrite <- Z.pow_add_r by lia. f_equal. lia.
  - now apply shr_1_m.
Qed.

Lemma shr_m_of_loc (m : Z) (l : location) :
  shr_m (shr_record_of_loc m l) = m.
Proof. destruct l as [|[| |]]; reflexivity. Qed.

Lemma shr_fexp_bounds (m e : Z) (l : location) (j : Z)
    (mrs : shr_record) (e' : Z) :
  0 <= m < 2 ^ j -> 0 <= j -> j + e <= 1024 -> e <= 971 ->
  shr_fexp prec emax m e l = (mrs, e') ->
  e' <= 971 /\ 0 <= shr_m mrs < 2 ^ Z.max 0 (j + e - e').
Proof.
  intros Hm Hj Hje He. unfold shr_fexp, shr.
  pose proof (Zdigits2_le m j Hm Hj) as Hd.
  assert (Hf : fexp prec emax (Zdigits2 m + e) <= 971).
  { unfold fexp, SpecFloat.emin, prec, emax. lia. }
  destruct (fexp prec emax (Zdigits2 m + e) - e) as [|p|p] eqn:Hn;
    intros [= <- <-]; rewrite ?shr_m_of_loc.
  - replace (Z.max 0 (j + e - e)) with j by lia. lia.
  - rewrite shr_m_iter by (rewrite shr_m_of_loc; lia).
    rewrite shr_m_of_loc. split; [lia|].
    split; [apply Z.div_pos; lia|].
    destruct (Z_le_gt_dec (Z.pos p) j) as [Hle|Hgt].
    + replace (Z.max 0 (j + e - (e + Z.pos p))) with (j - Z.pos p) by lia.
      apply Z.div_lt_upper_bound; [lia|].
      rewrite <- Z.pow_add_r by lia.
      replace (Z.pos p + (j - Z.pos p)) with j by lia. lia.
    + replace (Z.max 0 (j + e - (e + Z.pos p))) with 0 by lia.
      rewrite Z.div_small; [reflexivity|].
      split; [lia|]. apply Z.lt_le_trans with (2 ^ j); [lia|].
      apply Z.pow_le_mono_r; lia.
  - replace (Z.max 0 (j + e - e)) with j by lia. lia.
Qed.

Lemma round_nearest_even_bounds (m : Z) (l : location) :
  0 <= m -> 0 <= round_nearest_even m l <= m + 1.
Proof.
  intros H. destruct l as [|[| |]]; cbn [round_nearest_even]; try lia.
  destruct (Z.even m); lia.
Qed.

(** A mantissa below [2 ^ k] at exponent [e] rounds to a zero or to a
    finite number as soon as [k + e] stays below the largest exponent. *)
Lemma binary_round_aux_finite (s : bool) (m e : Z) (l : location) (k : Z) :
  0 <= m < 2 ^ k -> 0 <= k -> k + e <= 1023 -> e <= 971 ->
  match binary_round_aux prec emax s m e l with
  | S754_zero _ | S754_finite _ _ _ => True
  | _ => False
  end.
Proof.
  intros Hm Hk Hke He. unfold binary_round_aux.
  destruct (shr_fexp prec emax m e l) as [mrs' e'] eqn:E1.
  destruct (shr_fexp_bounds m e l k mrs' e' Hm Hk ltac:(lia) He E1)
    as [He' Hm'].
  pose proof (round_nearest_even_bounds (shr_m mrs')
                (loc_of_shr_record mrs') ltac:(lia)) as Hr.
  set (m1 := round_nearest_even (shr_m mrs') (loc_of_shr_record mrs')) in *.
  assert (Hm1 : 0 <= m1 < 2 ^ (1024 - e')).
  { split; [lia|].
    apply Z.le_lt_trans with (2 ^ (1023 - e')).
    - assert (2 ^ Z.max 0 (k + e - e') <= 2 ^ (1023 - e'))
        by (apply Z.pow_le_mono_r; lia).
      lia.
    - apply Z.pow_lt_mono_r; lia. }
  destruct (shr_fexp prec emax m1 e' loc_Exact) as [mrs'' e''] eqn:E2.
  destruct (shr_fexp_bounds m1 e' loc_Exact (1024 - e') mrs'' e''
              Hm1 ltac:(lia) ltac:(lia) He' E2) as [He'' Hm''].
  destruct (shr_m mrs'') as [|q|q]; [exact I| |lia].
  assert (Hle : (e'' <=? emax - prec) = true)
    by (apply Z.leb_le; unfold emax, prec; lia).
  now rewrite Hle.
Qed.

(** *** Halving a finite number *)

Lemma SFdiv_two_finite (sx sy : bool) (m : positive) (e : Z) :
  bounded prec emax m e = true ->
  match SF64div (S754_finite sx m e)
          (S754_finite sy 4503599627370496 (-51)) with
  | S754_zero _ | S754_finite _ _ _ => True
  | _ => False
  end.
Proof.
  intros Hb. apply canonical_fexp in Hb. destruct Hb as [Hc He].
  pose proof (digits2_pos_upper m) as Hup.
  set (d := Z.pos (digits2_pos m)) in *.
  assert (Hd : d <= 53 /\ e <= 971).
  { unfold fexp, SpecFloat.emin, prec, emax in *. lia. }
  unfold SF64div, SFdiv, SFdiv_core_binary.
  cbn [Zdigits2 digits2_pos Pos.succ]. fold d.
  set (e' := Z.min (fexp prec emax (d + e - (53 + -51))) (e - -51)).
  assert (He' : e' <= 969 /\ e' <= e + 51).
  { unfold e', fexp, SpecFloat.emin, prec, emax. lia. }
  set (s := e - -51 - e').
  assert (Hs : 0 <= s) by (unfold s; lia).
  set (m' := match s with
             | 0 => Z.pos m
             | Z.pos _ => Z.shiftl (Z.pos m) s
             | Z.neg _ => 0
             end).
  assert (Hm' : m' = Z.pos m * 2 ^ s).
  { unfold m'. destruct s as [|p|p] eqn:Es.
    - lia.
    - apply Z.shiftl_mul_pow2. lia.
    - lia. }
  destruct (Z.div_eucl m' 4503599627370496) as [q r] eqn:Eq.
  assert (Hq : q = m' / 4503599627370496).
  { unfold Z.div. now rewrite Eq. }
  apply binary_round_aux_finite with (k := s + 1); try lia.
  rewrite Hq, Hm'. split.
  - apply Z.div_pos; [|lia]. apply Z.mul_nonneg_nonneg; [lia|].
    apply Z.pow_nonneg. lia.
  - apply Z.div_lt_upper_bound; [lia|].
    change 4503599627370496 with (2 ^ 52).
    rewrite <- Z.pow_add_r by lia.
    replace (52 + (s + 1)) with (53 + s) by lia.
    rewrite Z.pow_add_r by lia.
    apply Z.mul_lt_mono_pos_r; [apply Z.pow_pos_nonneg; lia|].
    apply Z.lt_le_trans with (2 ^ d); [exact Hup|].
    apply Z.pow_le_mono_r; lia.
Qed.

End Rounding.

(** ** Facts about binary64 arithmetic

    Each primitive operation is specified by the library through its image
    under [Prim2SF]; the facts below are read off those specifications. *)

Module FloatFacts.

Lemma Prim2SF_nan : Prim2SF nan = S754_nan.
Proof. reflexivity. Qed.

Lemma SFcompare_refl (X : spec_float) :
  X <> S754_nan -> SFcompare X X = Some Eq.
Proof.
  destruct X as [s|s| |s m e]; intros H; try congruence.
  - reflexivity.
  - destruct s; reflexivity.
  - simpl. rewrite Z.compare_refl.
    change (Pos.compare_cont Eq m m) with (Pos.compare m m).
    rewrite Pos.compare_refl. destruct s; reflexivity.
Qed.

Lemma is_nan_spec (x : float) :
  is_nan x = true <-> Prim2SF x = S754_nan.
Proof.
  unfold is_nan. rewrite eqb_spec. unfold SFeqb. split.
  - intros H. destruct (Prim2SF x) eqn:E; try reflexivity;
      rewrite SFcompare_refl in H by discriminate; discriminate.
  - intros ->. reflexivity.
Qed.

Lemma is_nan_eq (x : float) : is_nan x = true <-> x = nan.
Proof.
  rewrite is_nan_spec. split.
  - intros H. apply Prim2SF_inj. now rewrite H.
  - intros ->. reflexivity.
Qed.

Lemma is_zero_spec (x : float) :
  is_zero x = true <-> exists s, Prim2SF x = S754_zero s.
Proof.
  unfold is_zero. rewrite eqb_spec.
  change (Prim2SF zero) with (S754_zero false). unfold SFeqb. split.
  - destruct (Prim2SF x) as [s|s| |s m e]; simpl; try discriminate.
    + intros _. now exists s.
    + destruct s; discriminate.
    + destruct s; discriminate.
  - intros [s ->]. reflexivity.
Qed.

Lemma is_infinity_spec (x : float) :
  is_infinity x = true <-> exists s, Prim2SF x = S754_infinity s.
Proof.
  unfold is_infinity. rewrite eqb_spec, abs_spec.
  change (Prim2SF infinity) with (S754_infinity false). unfold SFeqb. split.
  - destruct (Prim2SF x) as [s|s| |s m e]; simpl; try discriminate.
    intros _. now exists s.
  - intros [s ->]. reflexivity.
Qed.

(** A number is finite when it is a zero or has a mantissa. *)
Lemma is_finite_spec (x : float) :
  is_finite x = true <->
  (exists s, Prim2SF x = S754_zero s) \/
  (exists s m e, Prim2SF x = S754_finite s m e).
Proof.
  unfold is_finite. rewrite negb_true_iff, orb_false_iff. split.
  - intros [Hn Hi].
    destruct (Prim2SF x) as [s|s| |s m e] eqn:E.
    + left. now exists s.
    + assert (is_infinity x = true) by (apply is_infinity_spec; now exists s).
      congruence.
    + assert (is_nan x = true) by now apply is_nan_spec.
      congruence.
    + right. now exists s, m, e.
  - intros H. split.
    + destruct (is_nan x) eqn:E; [|reflexivity].
      apply is_nan_spec in E. destruct H as [[s H]|[s [m [e H]]]]; congruence.
    + destruct (is_infinity x) eqn:E; [|reflexivity].
      apply is_infinity_spec in E. destruct E as [s' E].
      destruct H as [[s H]|[s [m [e H]]]]; congruence.
Qed.

(** *** NaN is absorbing and compares false *)

Lemma add_nan_l (x : float) : nan + x = nan.
Proof. apply Prim2SF_inj. rewrite add_spec. reflexivity. Qed.

Lemma add_nan_r (x : float) : x + nan = nan.
Proof.
  apply Prim2SF_inj. rewrite add_spec.
  change (Prim2SF nan) with S754_nan. now destruct (Prim2SF x).
Qed.

Lemma mul_nan_l (x : float) : nan * x = nan.
Proof. apply Prim2SF_inj. rewrite mul_spec. reflexivity. Qed.

Lemma mul_nan_r (x : float) : x * nan = nan.
Proof.
  apply Prim2SF_inj. rewrite mul_spec.
  change (Prim2SF nan) with S754_nan. now destruct (Prim2SF x).
Qed.

Lemma div_nan_l (x : float) : nan / x = nan.
Proof. apply Prim2SF_inj. rewrite div_spec. reflexivity. Qed.

Lemma ltb_nan_r (x : float) : (x <? nan) = false.
Proof.
  rewrite ltb_spec. change (Prim2SF nan) with S754_nan.
  unfold SFltb. now destruct (Prim2SF x).
Qed.

(** *** Division by [-2] is the opposite of division by [2] *)

Lemma div_neg_two (x : float) : x / -2 = - (x / 2).
Proof.
  apply Prim2SF_inj.
  now rewrite opp_spec, !div_spec, Rounding.SFdiv_neg_two.
Qed.

(** *** Adding a zero *)

(** Comparisons do not see the sign of a zero. *)
Lemma SFltb_zero_r (L : spec_float) (s s' : bool) :
  SFltb L (S754_zero s) = SFltb L (S754_zero s').
Proof. now destruct L. Qed.

Lemma SFadd_zero_l (s : bool) (D : spec_float) :
  SF64add (S754_zero s) D = D \/
  exists s' s'', D = S754_zero s' /\ SF64add (S754_zero s) D = S754_zero s''.
Proof.
  destruct D as [s'| | |]; try (now left).
  right. exists s'. destruct s, s'; eexists; split; reflexivity.
Qed.

Lemma ltb_add_zero_l (c d l : float) :
  is_zero c = true -> (l <? c + d) = (l <? d).
Proof.
  intros Hc. apply is_zero_spec in Hc. destruct Hc as [s Hc].
  rewrite !ltb_spec, add_spec, Hc.
  destruct (SFadd_zero_l s (Prim2SF d)) as [-> | [s' [s'' [-> ->]]]].
  - reflexivity.
  - apply SFltb_zero_r.
Qed.

(** *** Equality up to the sign of a zero *)

Lemma SFcompare_Eq (A B : spec_float) :
  SFcompare A B = Some Eq ->
  A = B \/ exists s s', A = S754_zero s /\ B = S754_zero s'.
Proof.
  destruct A as [sa|sa| |sa ma ea], B as [sb|sb| |sb mb eb]; cbn [SFcompare];
    try discriminate;
    try (destruct sa; discriminate); try (destruct sb; discriminate).
  - intros _. right. now exists sa, sb.
  - destruct sa, sb; intros H; try discriminate; now left.
  - destruct sa, sb; intros H; try discriminate;
      destruct (Z.compare ea eb) eqn:He; try discriminate;
      apply Z.compare_eq in He; subst eb; left; f_equal;
      apply Pos.compare_eq; unfold Pos.compare;
      destruct (Pos.compare_cont Eq ma mb); try discriminate; reflexivity.
Qed.

Lemma SameValueZero_spec (a b : float) :
  JS.SameValueZero a b = true <->
  a = b \/ (is_zero a = true /\ is_zero b = true).
Proof.
  unfold JS.SameValueZero. rewrite orb_true_iff, andb_true_iff. split.
  - intros [H | [Ha Hb]].
    + rewrite eqb_spec in H. unfold SFeqb in H.
      destruct (SFcompare (Prim2SF a) (Prim2SF b)) as [[| |]|] eqn:E;
        try discriminate.
      apply SFcompare_Eq in E. destruct E as [E | [sa [sb [Ea Eb]]]].
      * left. now apply Prim2SF_inj.
      * right. split; apply is_zero_spec; eauto.
    + left. apply is_nan_eq in Ha, Hb. congruence.
  - intros [<- | [Ha Hb]].
    + destruct (is_nan a) eqn:Hn; [now right|]. left.
      unfold is_nan in Hn. now apply negb_false_iff in Hn.
    + left. apply is_zero_spec in Ha, Hb.
      destruct Ha as [sa Ha], Hb as [sb Hb].
      now rewrite eqb_spec, Ha, Hb.
Qed.

Lemma same_refl (a : float) : JS.SameValueZero a a = true.
Proof. apply SameValueZero_spec. now left. Qed.

Lemma same_trans (a b c : float) :
  JS.SameValueZero a b = true -> JS.SameValueZero b c = true ->
  JS.SameValueZero a c = true.
Proof.
  rewrite !SameValueZero_spec.
  intros [-> | [Ha Hb]] [-> | [Hb' Hc]]; auto.
Qed.

Lemma same_add_zero_r (x z : float) :
  is_zero z = true -> JS.SameValueZero (x + z) x = true.
Proof.
  intros Hz. apply SameValueZero_spec.
  apply is_zero_spec in Hz. destruct Hz as [s Hz].
  destruct (Prim2SF x) as [sx|sx| |sx mx ex] eqn:Ex.
  - right. split; apply is_zero_spec; [|now exists sx].
    rewrite add_spec, Ex, Hz. destruct sx, s; eexists; reflexivity.
  - left. apply Prim2SF_inj. now rewrite add_spec, Ex, Hz.
  - left. apply Prim2SF_inj. now rewrite add_spec, Ex, Hz.
  - left. apply Prim2SF_inj. now rewrite add_spec, Ex, Hz.
Qed.

Lemma same_add_l (a b t : float) :
  JS.SameValueZero a b = true -> JS.SameValueZero (a + t) (b + t) = true.
Proof.
  rewrite !SameValueZero_spec. intros [-> | [Ha Hb]]; [now left|].
  apply is_zero_spec in Ha, Hb. destruct Ha as [sa Ha], Hb as [sb Hb].
  destruct (Prim2SF t) as [st|st| |st mt et] eqn:Et.
  - right. split; apply is_zero_spec; rewrite add_spec, ?Ha, ?Hb, Et.
    + destruct sa, st; eexists; reflexivity.
    + destruct sb, st; eexists; reflexivity.
  - left. apply Prim2SF_inj. now rewrite !add_spec, Ha, Hb, Et.
  - left. apply Prim2SF_inj. now rewrite !add_spec, Ha, Hb, Et.
  - left. apply Prim2SF_inj. now rewrite !add_spec, Ha, Hb, Et.
Qed.

Lemma same_ltb (a b l : float) :
  JS.SameValueZero a b = true -> (l <? a) = (l <? b).
Proof.
  rewrite SameValueZero_spec. intros [-> | [Ha Hb]]; [reflexivity|].
  apply is_zero_spec in Ha, Hb. destruct Ha as [sa Ha], Hb as [sb Hb].
  rewrite !ltb_spec, Ha, Hb. apply SFltb_zero_r.
Qed.

Lemma same_truthy (a b : float) :
  JS.SameValueZero a b = true -> JS.truthy a = JS.truthy b.
Proof.
  rewrite SameValueZero_spec. intros [-> | [Ha Hb]]; [reflexivity|].
  unfold JS.truthy. now rewrite Ha, Hb.
Qed.

(** *** Finite numbers and zeros *)

Lemma is_zero_is_finite (x : float) :
  is_zero x = true -> is_finite x = true.
Proof. rewrite is_zero_spec, is_finite_spec. now left. Qed.

Lemma is_zero_not_special (x : float) :
  is_zero x = true -> is_nan x || is_infinity x = false.
Proof.
  intros H. apply is_zero_is_finite in H. unfold is_finite in H.
  now apply negb_true_iff in H.
Qed.

Lemma opp_is_finite (x : float) :
  is_finite x = true -> is_finite (- x) = true.
Proof.
  rewrite !is_finite_spec, opp_spec.
  intros [[s ->] | [s [m [e ->]]]]; cbn [SFopp]; eauto.
Qed.

Lemma mul_finite_zero (a z : float) :
  is_finite a = true -> is_zero z = true -> is_zero (a * z) = true.
Proof.
  rewrite is_finite_spec, !is_zero_spec, mul_spec.
  intros [[s ->] | [s [m [e ->]]]] [sz ->]; cbn; eauto.
Qed.

Lemma mul_zero_finite (a b : float) :
  is_zero a = true -> is_finite b = true -> is_zero (a * b) = true.
Proof.
  rewrite is_finite_spec, !is_zero_spec, mul_spec.
  intros [sa ->] [[s ->] | [s [m [e ->]]]]; cbn; eauto.
Qed.

Lemma div_zero_nonzero (a b : float) (s : bool) (m : positive) (e : Z) :
  Prim2SF b = S754_finite s m e ->
  is_zero a = true -> is_zero (a / b) = true.
Proof.
  intros Hb. rewrite !is_zero_spec, div_spec, Hb.
  intros [sa ->]. cbn. eauto.
Qed.

(** *** Exact operations *)

Lemma mul_one_r (x : float) : x * 1 = x.
Proof.
  apply Prim2SF_inj. rewrite mul_spec. apply Rounding.SFmul_one_r, Prim2SF_valid.
Qed.

Lemma sub_add_opp (x t : float) : x - t = x + - t.
Proof.
  apply Prim2SF_inj. rewrite sub_spec, add_spec, opp_spec.
  destruct (Prim2SF x) as [sx|sx| |sx mx ex], (Prim2SF t) as [st|st| |st mt et];
    try reflexivity; destruct sx, st; reflexivity.
Qed.

Lemma div_two_finite (x : float) :
  is_finite x = true -> is_finite (x / 2) = true.
Proof.
  rewrite !is_finite_spec, div_spec. intros H.
  change (Prim2SF 2) with (S754_finite false 4503599627370496 (-51)).
  pose proof (Prim2SF_valid x) as Hv.
  destruct H as [[s H]|[s [m [e H]]]]; rewrite H in *.
  - left. now exists (xorb s false).
  - cbn [valid_binary] in Hv.
    pose proof (Rounding.SFdiv_two_finite s false m e Hv) as Hf.
    destruct (SF64div _ _) as [s'| | |s' m' e'].
    + left. now exists s'.
    + contradiction.
    + contradiction.
    + right. now exists s', m', e'.
Qed.

End FloatFacts.


(** ** The guard on the link *)

Section Guard.

Context {C : Constants} {M : Math}.

Lemma isLinkBelowLimit_parts (e : Element) :
  isLinkBelowLimit e =
  if no_link_url e then false
  else JS.Boolean (find exceeds (getYCoordinatesByAngle e)).
Proof. reflexivity. Qed.

Lemma no_link_url_present (e : Element) :
  Spec.has_link_url e = true -> no_link_url e = false.
Proof.
  unfold Spec.has_link_url, no_link_url, url_length.
  destruct (link e) as [[[[|a u]|]]|]; try discriminate.
  intros _. reflexivity.
Qed.

Lemma no_link_url_absent (e : Element) :
  Spec.has_link_url e = false -> no_link_url e = true.
Proof.
  unfold Spec.has_link_url, no_link_url, url_length.
  destruct (link e) as [[[[|a u]|]]|]; try discriminate;
    intros _; reflexivity.
Qed.

Lemma isLinkBelowLimit_guard (e : Element) :
  isLinkBelowLimit e =
  Spec.has_link_url e
  && JS.Boolean (find exceeds (getYCoordinatesByAngle e)).
Proof.
  rewrite isLinkBelowLimit_parts.
  destruct (Spec.has_link_url e) eqn:H.
  - now rewrite no_link_url_present.
  - now rewrite no_link_url_absent.
Qed.

End Guard.

(** ** The corner list *)

Section Corners.

Context {C : Constants} {M : Math}.

(** C2: [getYCoordinatesByAngle] returns exactly four values, one per corner
    offset (-w/2,-h/2), (w/2,-h/2), (w/2,h/2), (-w/2,h/2) in this order (upper
    left, upper right, bottom right, bottom left), each being
    y + height + dx.sin(radians) + dy.cos(radians) with
    radians = rotationAngle.pi/180. *)
Theorem getYCoordinatesByAngle_corners (e : Element) :
  getYCoordinatesByAngle e = Spec.corners e /\
  List.length (getYCoordinatesByAngle e) = 4%nat /\
  getYCoordinatesByAngle e =
    [ Spec.cornerY e (- (width e / 2)) (- (height e / 2));
      Spec.cornerY e (width e / 2) (- (height e / 2));
      Spec.cornerY e (width e / 2) (height e / 2);
      Spec.cornerY e (- (width e / 2)) (height e / 2) ].
Proof.
  assert (H : getYCoordinatesByAngle e = Spec.corners e).
  { unfold getYCoordinatesByAngle, Spec.corners, Spec.offsets, Spec.cornerY,
      Spec.radians.
    cbn [map fst snd]. now rewrite !FloatFacts.div_neg_two. }
  split; [exact H|]. split; [reflexivity | exact H].
Qed.

End Corners.

(** ** Elements without a usable link *)

Section NoLink.

Context {C : Constants} {M : Math}.

(** C3: when the link is absent, or its url is absent or of length zero,
    [isLinkBelowLimit] is false whatever the geometry of the element; the
    guard looks at the presence of the link, then at the presence of the url,
    then at the length being positive. *)
Theorem isLinkBelowLimit_without_link (e : Element) :
  link e = None \/
  (exists l, link e = Some l /\ url l = None) \/
  (exists l u, link e = Some l /\ url l = Some u /\ String.length u = 0%nat) ->
  isLinkBelowLimit e = false /\
  no_link_url e =
    match link e with
    | None => true
    | Some l =>
        match url l with
        | None => true
        | Some u => negb (Nat.ltb 0 (String.length u))
        end
    end.
Proof.
  intros H. split.
  - rewrite isLinkBelowLimit_parts, no_link_url_absent; [reflexivity|].
    unfold Spec.has_link_url.
    destruct H as [-> | [[l [-> Hu]] | [l [u [-> [Hu Hlen]]]]]].
    + reflexivity.
    + destruct l as [u']. simpl in Hu. now subst u'.
    + destruct l as [u']. simpl in Hu. subst u'.
      destruct u; [reflexivity | discriminate].
  - unfold no_link_url, url_length.
    destruct (link e) as [[[u|]]|]; try reflexivity.
    simpl. now destruct u.
Qed.


End NoLink.

(** ** Not-a-number in the geometry *)

Create Rewrite HintDb nan_absorbs.

#[local] Hint Rewrite
  FloatFacts.add_nan_l FloatFacts.add_nan_r
  FloatFacts.mul_nan_l FloatFacts.mul_nan_r
  FloatFacts.div_nan_l : nan_absorbs.

Section NotANumber.

Context {C : Constants} {M : Math}.

Lemma exceeds_nan : exceeds nan = false.
Proof.
  unfold exceeds, JS.gt.
  now rewrite FloatFacts.add_nan_l, FloatFacts.ltb_nan_r.
Qed.

Lemma corners_nan (e : Element) :
  Conforming M ->
  is_nan (y e) = true \/ is_nan (width e) = true \/
  is_nan (height e) = true \/ is_nan (rotationAngle e) = true ->
  getYCoordinatesByAngle e = [nan; nan; nan; nan].
Proof.
  intros HM H. unfold getYCoordinatesByAngle.
  destruct H as [H | [H | [H | H]]]; apply FloatFacts.is_nan_eq in H;
    rewrite H; autorewrite with nan_absorbs;
    rewrite ?(sin_nan M HM); autorewrite with nan_absorbs; reflexivity.
Qed.

(** C8: with a non-empty link url and NaN as y, width, height or rotation
    angle, every corner is NaN, every comparison with the limit is false, and
    [isLinkBelowLimit] is false. *)
Theorem isLinkBelowLimit_nan (e : Element) :
  Conforming M ->
  Spec.has_link_url e = true ->
  is_nan (y e) = true \/ is_nan (width e) = true \/
  is_nan (height e) = true \/ is_nan (rotationAngle e) = true ->
  Forall (fun c => is_nan c = true) (getYCoordinatesByAngle e) /\
  Forall (fun c => JS.gt (c + DANGER_ZONE_HEIGHT) limit = false)
    (getYCoordinatesByAngle e) /\
  isLinkBelowLimit e = false.
Proof.
  intros HM _ H.
  pose proof (corners_nan e HM H) as Hc.
  rewrite isLinkBelowLimit_guard, Hc. split; [|split].
  - repeat constructor.
  - repeat constructor; apply exceeds_nan.
  - cbn [find]. rewrite exceeds_nan. cbn. apply andb_false_r.
Qed.

End NotANumber.

(** ** The search among the corners *)

Section Search.

Context {C : Constants} {M : Math}.

(** [Array.prototype.find] returns the first element the callback accepts. *)
Lemma find_first {A : Type} (f : A -> bool) (pre post : list A) (c : A) :
  Forall (fun p => f p = false) pre -> f c = true ->
  find f (pre ++ c :: post) = Some c.
Proof.
  induction 1 as [|p pre Hp _ IH]; intros Hc; cbn [app find].
  - now rewrite Hc.
  - rewrite Hp. now apply IH.
Qed.

Lemma exceeds_zero (c : float) :
  is_zero c = true -> exceeds c = JS.gt DANGER_ZONE_HEIGHT limit.
Proof. intros Hc. unfold exceeds, JS.gt. now apply FloatFacts.ltb_add_zero_l. Qed.

(** A corner above the limit is a truthy number, unless the danger zone
    alone is higher than the limit. *)
Lemma exceeds_truthy (c : float) :
  JS.gt DANGER_ZONE_HEIGHT limit = false ->
  exceeds c = true -> JS.truthy c = true.
Proof.
  intros Hgeo Hc. unfold JS.truthy.
  destruct (is_zero c) eqn:Hz.
  - rewrite (exceeds_zero c Hz) in Hc. congruence.
  - destruct (is_nan c) eqn:Hn; [|reflexivity].
    apply FloatFacts.is_nan_eq in Hn. subst c.
    rewrite exceeds_nan in Hc. discriminate.
Qed.

Lemma Boolean_find_existsb (l : list float) :
  JS.gt DANGER_ZONE_HEIGHT limit = false ->
  JS.Boolean (find exceeds l) = existsb exceeds l.
Proof.
  intros Hgeo. induction l as [|c l IH]; cbn [find existsb]; [reflexivity|].
  destruct (exceeds c) eqn:Hc; [|exact IH].
  cbn. now apply exceeds_truthy.
Qed.

(** C1: when the link has a non-empty url, [isLinkBelowLimit] is true if and
    only if one of the four values of [getYCoordinatesByAngle], once
    DANGER_ZONE_HEIGHT = (FULLBLEED_HEIGHT - PAGE_HEIGHT) / 2 is added to it,
    is greater than limit = FULLBLEED_HEIGHT * 0.8, and false otherwise.  The
    page geometry is such that the danger zone alone does not reach the
    limit. *)
Theorem isLinkBelowLimit_iff_corner_exceeds (e : Element) :
  Spec.has_link_url e = true ->
  JS.gt DANGER_ZONE_HEIGHT limit = false ->
  (isLinkBelowLimit e = true <->
   exists c, In c (getYCoordinatesByAngle e) /\
             JS.gt (c + DANGER_ZONE_HEIGHT) (FULLBLEED_HEIGHT * 0.8) = true) /\
  (isLinkBelowLimit e = false <->
   forall c, In c (getYCoordinatesByAngle e) ->
             JS.gt (c + DANGER_ZONE_HEIGHT) (FULLBLEED_HEIGHT * 0.8) = false).
Proof.
  intros Hl Hgeo.
  rewrite isLinkBelowLimit_guard, Hl, Boolean_find_existsb by exact Hgeo.
  cbn [andb]. split.
  - rewrite existsb_exists. reflexivity.
  - rewrite <- not_true_iff_false, existsb_exists. split.
    + intros H c Hin. apply not_true_iff_false. intros Hc.
      apply H. now exists c.
    + intros H [c [Hin Hc]]. specialize (H c Hin).
      fold limit in H. fold (exceeds c) in H. congruence.
Qed.

(** C9: when the link has a non-empty url, [isLinkBelowLimit] is [Boolean]
    of the first corner, in the order upper left, upper right, bottom right,
    bottom left, whose sum with DANGER_ZONE_HEIGHT is greater than the limit
    ([Boolean] of [undefined] when there is none); so when that corner is a
    zero the result is false although a corner exceeds the limit. *)
Theorem isLinkBelowLimit_first_corner (e : Element) :
  Spec.has_link_url e = true ->
  (forall (pre post : list float) (c : float),
     getYCoordinatesByAngle e = pre ++ c :: post ->
     Forall (fun p => JS.gt (p + DANGER_ZONE_HEIGHT) limit = false) pre ->
     JS.gt (c + DANGER_ZONE_HEIGHT) limit = true ->
     isLinkBelowLimit e = JS.Boolean (Some c) /\
     (is_zero c = true ->
      isLinkBelowLimit e = false /\
      Exists (fun p => JS.gt (p + DANGER_ZONE_HEIGHT) limit = true)
        (getYCoordinatesByAngle e))) /\
  (Forall (fun p => JS.gt (p + DANGER_ZONE_HEIGHT) limit = false)
     (getYCoordinatesByAngle e) ->
   isLinkBelowLimit e = JS.Boolean None).
Proof.
  intros Hl. rewrite isLinkBelowLimit_guard, Hl. cbn [andb]. split.
  - intros pre post c Hsplit Hpre Hc.
    rewrite Hsplit, (find_first exceeds pre post c Hpre Hc).
    split; [reflexivity|].
    intros Hz. split.
    + cbn. unfold JS.truthy. now rewrite Hz.
    + apply Exists_app. right. now constructor.
  - intros Hall.
    destruct (find exceeds (getYCoordinatesByAngle e)) as [c|] eqn:Hf;
      [|reflexivity].
    apply find_some in Hf. destruct Hf as [Hin Hc].
    rewrite Forall_forall in Hall. specialize (Hall c Hin).
    fold (exceeds c) in Hall. congruence.
Qed.

End Search.

(** ** The reference engine conforms *)

Lemma Reference_conforming : Conforming Reference.math.
Proof.
  split; cbn [Math_sin Math_cos Reference.math];
    unfold Reference.sin, Reference.cos.
  - reflexivity.
  - intros x Hz. now rewrite (FloatFacts.is_zero_not_special x Hz), Hz.
  - intros x Hi. now rewrite Hi, orb_true_r.
  - reflexivity.
  - intros x Hz. now rewrite (FloatFacts.is_zero_not_special x Hz), Hz.
  - intros x Hi. now rewrite Hi, orb_true_r.
Qed.

(** ** Elements that are not rotated *)

Section Unrotated.

Context {C : Constants} {M : Math}.

Lemma exceeds_same (a b : float) :
  JS.SameValueZero a b = true -> exceeds a = exceeds b.
Proof.
  intros H. unfold exceeds, JS.gt.
  now apply FloatFacts.same_ltb, FloatFacts.same_add_l.
Qed.

Lemma existsb_exceeds_same (l l' : list float) :
  Forall2 (fun c v => JS.SameValueZero c v = true) l l' ->
  existsb exceeds l = existsb exceeds l'.
Proof.
  induction 1 as [|c v l l' Hcv _ IH]; cbn [existsb]; [reflexivity|].
  now rewrite (exceeds_same c v Hcv), IH.
Qed.

Lemma radians_zero (r : float) :
  is_zero r = true -> is_zero (r * JS.Math_PI / 180) = true.
Proof.
  intros Hr.
  apply (FloatFacts.div_zero_nonzero _ 180 false 6333186975989760 (-45));
    [reflexivity|].
  now apply FloatFacts.mul_zero_finite.
Qed.

(** Without rotation the width term is a zero and the height term is half
    the height, so the corners are [y + height - height / 2] twice and
    [y + height + height / 2] twice. *)
Lemma corners_unrotated (e : Element) :
  Conforming M ->
  is_zero (rotationAngle e) = true ->
  is_finite (width e) = true ->
  Forall2 (fun c v => JS.SameValueZero c v = true)
    (getYCoordinatesByAngle e)
    [Spec.top e; Spec.top e; Spec.bottom e; Spec.bottom e].
Proof.
  intros HM Hrot Hw. unfold getYCoordinatesByAngle, Spec.top, Spec.bottom.
  pose proof (radians_zero _ Hrot) as Hr.
  rewrite (sin_zero M HM _ Hr), (cos_zero M HM _ Hr).
  rewrite !FloatFacts.mul_one_r, !FloatFacts.div_neg_two,
    FloatFacts.sub_add_opp.
  pose proof (FloatFacts.div_two_finite _ Hw) as Hw2.
  pose proof (FloatFacts.opp_is_finite _ Hw2) as Hw2'.
  repeat constructor;
    apply FloatFacts.same_add_l, FloatFacts.same_add_zero_r,
      FloatFacts.mul_finite_zero; assumption.
Qed.

Lemma isLinkBelowLimit_direct (e : Element) :
  Conforming M ->
  JS.gt DANGER_ZONE_HEIGHT limit = false ->
  is_zero (rotationAngle e) = true ->
  is_finite (width e) = true ->
  isLinkBelowLimit e = Spec.direct (Spec.top e) (Spec.bottom e) e.
Proof.
  intros HM Hgeo Hrot Hw.
  rewrite isLinkBelowLimit_guard, (Boolean_find_existsb _ Hgeo).
  rewrite (existsb_exceeds_same _ _ (corners_unrotated e HM Hrot Hw)).
  unfold Spec.direct. cbn [existsb]. f_equal.
  now destruct (exceeds (Spec.top e)), (exceeds (Spec.bottom e)).
Qed.

(** C4, amended: for an element with rotation angle zero and a finite
    width, the two top corners are y + height - height / 2 and the two
    bottom corners are y + height + height / 2, each evaluated in binary64
    from left to right, and [isLinkBelowLimit] agrees with the predicate
    computed from these two values without any rotation. *)
Theorem isLinkBelowLimit_unrotated (e : Element) :
  Conforming M ->
  JS.gt DANGER_ZONE_HEIGHT limit = false ->
  is_zero (rotationAngle e) = true ->
  is_finite (width e) = true ->
  Forall2 (fun c v => JS.SameValueZero c v = true)
    (getYCoordinatesByAngle e)
    [Spec.top e; Spec.top e; Spec.bottom e; Spec.bottom e] /\
  isLinkBelowLimit e = Spec.direct (Spec.top e) (Spec.bottom e) e.
Proof.
  intros HM Hgeo Hrot Hw. split.
  - now apply corners_unrotated.
  - now apply isLinkBelowLimit_direct.
Qed.

End Unrotated.

(** ** Elements reduced to a point *)

Section Point.

Context {C : Constants} {M : Math}.

Lemma corners_of_point (e : Element) :
  is_zero (width e) = true ->
  is_zero (height e) = true ->
  is_finite (Math_sin (Spec.radians e)) = true ->
  is_finite (Math_cos (Spec.radians e)) = true ->
  Forall (fun c => JS.SameValueZero c (y e) = true)
    (getYCoordinatesByAngle e).
Proof.
  intros Hw Hh Hs Hc. unfold getYCoordinatesByAngle. fold (Spec.radians e).
  assert (Hw2 : is_zero (width e / 2) = true)
    by (now apply (FloatFacts.div_zero_nonzero _ 2 false
                     4503599627370496 (-51))).
  assert (Hw2' : is_zero (width e / -2) = true)
    by (now apply (FloatFacts.div_zero_nonzero _ (-2) true
                     4503599627370496 (-51))).
  assert (Hh2 : is_zero (height e / 2) = true)
    by (now apply (FloatFacts.div_zero_nonzero _ 2 false
                     4503599627370496 (-51))).
  assert (Hh2' : is_zero (height e / -2) = true)
    by (now apply (FloatFacts.div_zero_nonzero _ (-2) true
                     4503599627370496 (-51))).
  assert (Hsum : forall zw zh,
             is_zero zw = true -> is_zero zh = true ->
             JS.SameValueZero
               (y e + height e + zw * Math_sin (Spec.radians e)
                + zh * Math_cos (Spec.radians e)) (y e) = true).
  { intros zw zh Hzw Hzh.
    eapply FloatFacts.same_trans;
      [apply FloatFacts.same_add_zero_r;
       now apply FloatFacts.mul_zero_finite|].
    eapply FloatFacts.same_trans;
      [apply FloatFacts.same_add_zero_r;
       now apply FloatFacts.mul_zero_finite|].
    now apply FloatFacts.same_add_zero_r. }
  repeat constructor; now apply Hsum.
Qed.

Lemma Boolean_find_same (v c : float) (l : list float) :
  Forall (fun p => JS.SameValueZero p v = true) (c :: l) ->
  JS.Boolean (find exceeds (c :: l)) = exceeds v && JS.truthy v.
Proof.
  intros H. destruct (exceeds v) eqn:Hv.
  - inversion H as [|? ? Hc _]; subst. cbn [find].
    rewrite (exceeds_same c v Hc), Hv. cbn.
    now apply FloatFacts.same_truthy.
  - assert (Hnone : find exceeds (c :: l) = None).
    { induction H as [|p l' Hp _ IH]; cbn [find]; [reflexivity|].
      now rewrite (exceeds_same p v Hp), Hv. }
    now rewrite Hnone.
Qed.

(** C10, amended: for an element of width zero and height zero, and a
    rotation angle at which [Math.sin] and [Math.cos] return finite numbers,
    the four corners all equal y, and [isLinkBelowLimit] is true exactly
    when the link has a non-empty url, y + DANGER_ZONE_HEIGHT is greater
    than the limit and y is truthy. *)
Theorem isLinkBelowLimit_point (e : Element) :
  is_zero (width e) = true ->
  is_zero (height e) = true ->
  is_finite (Math_sin (Spec.radians e)) = true ->
  is_finite (Math_cos (Spec.radians e)) = true ->
  Forall (fun c => JS.SameValueZero c (y e) = true)
    (getYCoordinatesByAngle e) /\
  isLinkBelowLimit e =
    Spec.has_link_url e
    && (JS.gt (y e + DANGER_ZONE_HEIGHT) limit && JS.truthy (y e)).
Proof.
  intros Hw Hh Hs Hc.
  pose proof (corners_of_point e Hw Hh Hs Hc) as H.
  split; [exact H|].
  rewrite isLinkBelowLimit_guard. f_equal.
  unfold getYCoordinatesByAngle in *.
  now apply Boolean_find_same.
Qed.

End Point.

(** ** The scenarios of the specification *)

Section Scenario.

Context {M : Math}.

#[local] Existing Instance scenario_constants.

(** C6: with PAGE_WIDTH = 412, PAGE_HEIGHT = 732 and FULLBLEED_RATIO = 9/16
    (a full-bleed height near 732.44, a danger zone near 0.22, a limit near
    585.96), the element with y = 600, width = 100, height = 100, no rotation
    and a non-empty link url has its bottom corners at 750, which exceed the
    limit, and is below the limit; the same element without a link is not;
    and an element at y = 0 with height = 20 and a link is not. *)
Theorem scenario_results :
  Conforming M ->
  ((732.44 <? FULLBLEED_HEIGHT) && (FULLBLEED_HEIGHT <? 732.45) = true /\
   (0.22 <? DANGER_ZONE_HEIGHT) && (DANGER_ZONE_HEIGHT <? 0.23) = true /\
   (585.95 <? limit) && (limit <? 585.96) = true) /\
  (forall u : string, u <> EmptyString ->
     let e := {| y := 600; width := 100; height := 100; rotationAngle := 0;
                 link := Some {| url := Some u |} |} in
     getYCoordinatesByAngle e = [650; 650; 750; 750] /\
     JS.gt (750 + DANGER_ZONE_HEIGHT) limit = true /\
     isLinkBelowLimit e = true) /\
  isLinkBelowLimit
    {| y := 600; width := 100; height := 100; rotationAngle := 0;
       link := None |} = false /\
  (forall (u : string) (w : float), u <> EmptyString -> is_finite w = true ->
     isLinkBelowLimit
       {| y := 0; width := w; height := 20; rotationAngle := 0;
          link := Some {| url := Some u |} |} = false).
Proof.
  intros HM. split; [|split; [|split]].
  - repeat split; reflexivity.
  - intros u Hu e.
    assert (Hc : getYCoordinatesByAngle e = [650; 650; 750; 750]).
    { unfold getYCoordinatesByAngle, e.
      cbn [y width height rotationAngle].
      rewrite (sin_zero M HM (0 * JS.Math_PI / 180) eq_refl).
      rewrite (cos_zero M HM (0 * JS.Math_PI / 180) eq_refl).
      reflexivity. }
    split; [exact Hc|]. split; [reflexivity|].
    rewrite isLinkBelowLimit_guard, Hc.
    destruct u as [|a u]; [contradiction|]. reflexivity.
  - reflexivity.
  - intros u w Hu Hw.
    rewrite (isLinkBelowLimit_direct _ HM); try reflexivity; [|exact Hw].
    unfold Spec.direct, Spec.top, Spec.bottom. cbn [y height].
    apply andb_false_iff. right. reflexivity.
Qed.

End Scenario.

(** ** A full turn *)

Section FullTurn.

Context {C : Constants} {M : Math}.


End FullTurn.

(** ** Where the specification's claims fail *)

Section Failures.

Context {M : Math}.

#[local] Existing Instance scenario_constants.

(** Evaluation of a concrete, non-rotated element: the sine and cosine of
    its angle are the prescribed ones. *)
Ltac unrotated HM :=
  rewrite ?isLinkBelowLimit_parts; unfold getYCoordinatesByAngle;
  cbn [y width height rotationAngle rounded_element absorbed_element
         threshold_element unbounded_element];
  rewrite ?(sin_zero M HM (0 * JS.Math_PI / 180) eq_refl),
    ?(cos_zero M HM (0 * JS.Math_PI / 180) eq_refl).

Lemma rounded_corners :
  Conforming M ->
  getYCoordinatesByAngle rounded_element =
    [0.20000000000000004; 0.20000000000000004; 0.4; 0.4].
Proof. intros HM. unrotated HM. reflexivity. Qed.

Lemma absorbed_corners :
  Conforming M ->
  getYCoordinatesByAngle absorbed_element = [1e16; 1e16; 1e16; 1e16].
Proof. intros HM. unrotated HM. reflexivity. Qed.

Lemma threshold_result :
  Conforming M -> isLinkBelowLimit threshold_element = false.
Proof. intros HM. unrotated HM. reflexivity. Qed.

Lemma unbounded_result :
  Conforming M ->
  getYCoordinatesByAngle unbounded_element = [nan; nan; nan; nan] /\
  isLinkBelowLimit unbounded_element = false.
Proof. intros HM. split; unrotated HM; reflexivity. Qed.

Lemma spinning_result :
  Conforming M ->
  getYCoordinatesByAngle spinning_point = [nan; nan; nan; nan] /\
  isLinkBelowLimit spinning_point = false.
Proof.
  intros HM.
  assert (Hc : getYCoordinatesByAngle spinning_point = [nan; nan; nan; nan]).
  { unfold getYCoordinatesByAngle.
    cbn [y width height rotationAngle spinning_point].
    rewrite (sin_infinity M HM (1e308 * JS.Math_PI / 180) eq_refl).
    autorewrite with nan_absorbs. reflexivity. }
  split; [exact Hc|]. rewrite isLinkBelowLimit_guard, Hc. reflexivity.
Qed.

Lemma nan_point_result :
  Conforming M ->
  getYCoordinatesByAngle nan_point = [nan; nan; nan; nan] /\
  isLinkBelowLimit nan_point = false.
Proof.
  intros HM.
  assert (Hc : getYCoordinatesByAngle nan_point = [nan; nan; nan; nan])
    by (apply corners_nan; [exact HM | now right; right; right]).
  split; [exact Hc|]. rewrite isLinkBelowLimit_guard, Hc. reflexivity.
Qed.


End Failures.

(** ** The theorems at concrete elements *)

Section Instances.

#[local] Existing Instance Reference.math.

Lemma isLinkBelowLimit_iff_corner_exceeds_witness :
  Spec.has_link_url scenario_element = true /\
  JS.gt (@DANGER_ZONE_HEIGHT scenario_constants) (@limit scenario_constants)
    = false /\
  (@isLinkBelowLimit scenario_constants _ scenario_element = true <->
   exists c,
     In c (getYCoordinatesByAngle scenario_element) /\
     JS.gt (c + @DANGER_ZONE_HEIGHT scenario_constants)
       (@FULLBLEED_HEIGHT scenario_constants * 0.8) = true).
Proof.
  split; [reflexivity|]. split; [reflexivity|].
  apply (@isLinkBelowLimit_iff_corner_exceeds scenario_constants
           Reference.math scenario_element); reflexivity.
Defined.

Lemma isLinkBelowLimit_without_link_witness :
  link unlinked_element = None /\
  @isLinkBelowLimit scenario_constants _ unlinked_element = false.
Proof.
  split; [reflexivity|].
  apply (@isLinkBelowLimit_without_link scenario_constants Reference.math
           unlinked_element).
  left. reflexivity.
Defined.

Lemma isLinkBelowLimit_nan_witness :
  is_nan (y nan_element) = true /\
  Spec.has_link_url nan_element = true /\
  @isLinkBelowLimit scenario_constants _ nan_element = false.
Proof.
  split; [reflexivity|]. split; [reflexivity|].
  apply (@isLinkBelowLimit_nan scenario_constants Reference.math nan_element).
  - exact Reference_conforming.
  - reflexivity.
  - left. reflexivity.
Defined.

Lemma isLinkBelowLimit_first_corner_witness :
  Spec.has_link_url origin_point = true /\
  @getYCoordinatesByAngle _ origin_point = [] ++ 0 :: [0; 0; 0] /\
  JS.gt (0 + @DANGER_ZONE_HEIGHT degenerate_constants)
    (@limit degenerate_constants) = true /\
  @isLinkBelowLimit degenerate_constants _ origin_point = false /\
  Exists
    (fun p => JS.gt (p + @DANGER_ZONE_HEIGHT degenerate_constants)
                (@limit degenerate_constants) = true)
    (@getYCoordinatesByAngle _ origin_point).
Proof.
  split; [reflexivity|]. split; [reflexivity|]. split; [reflexivity|].
  apply (proj1 (@isLinkBelowLimit_first_corner degenerate_constants
                  Reference.math origin_point eq_refl) [] [0; 0; 0] 0);
    try reflexivity.
  constructor.
Defined.

Lemma isLinkBelowLimit_unrotated_witness :
  is_zero (rotationAngle scenario_element) = true /\
  is_finite (width scenario_element) = true /\
  @isLinkBelowLimit scenario_constants _ scenario_element =
  @Spec.direct scenario_constants (Spec.top scenario_element)
    (Spec.bottom scenario_element) scenario_element.
Proof.
  split; [reflexivity|]. split; [reflexivity|].
  apply (@isLinkBelowLimit_unrotated scenario_constants Reference.math
           scenario_element);
    [exact Reference_conforming | reflexivity ..].
Defined.

Lemma isLinkBelowLimit_point_witness :
  is_zero (width low_point) = true /\
  is_zero (height low_point) = true /\
  is_finite (Math_sin (Spec.radians low_point)) = true /\
  is_finite (Math_cos (Spec.radians low_point)) = true /\
  Forall (fun c => JS.SameValueZero c (y low_point) = true)
    (getYCoordinatesByAngle low_point) /\
  @isLinkBelowLimit scenario_constants _ low_point = true.
Proof.
  repeat (split; [reflexivity|]).
  destruct (@isLinkBelowLimit_point scenario_constants Reference.math
              low_point eq_refl eq_refl eq_refl eq_refl) as [H1 H2].
  split; [exact H1 | rewrite H2; reflexivity].
Defined.

Lemma scenario_results_witness :
  @isLinkBelowLimit scenario_constants _ scenario_element = true /\
  @isLinkBelowLimit scenario_constants _ unlinked_element = false.
Proof.
  pose proof (@scenario_results Reference.math Reference_conforming)
    as [_ [H1 [H2 _]]].
  split.
  - apply (H1 "https://example.com"%string). discriminate.
  - exact H2.
Defined.

#[local] Existing Instance scenario_constants.



(** C4 as stated fails, for every conforming engine and here for the
    reference one.  At y = 0.1 and height = 0.2 the top corners are
    0.20000000000000004, not y + height / 2 = 0.2.  At y = 1e16 and
    height = 1 the four corners coincide although the height is positive.
    At y = 585.2833333333334 and height = 0.3 the function answers false
    while the predicate computed from y + height / 2 and y + 1.5 * height
    answers true.  With an infinite width the corners are NaN and the
    function answers false whatever the two values are. *)
Lemma unrotated_counterexample :
  (rotationAngle rounded_element = 0 /\
   getYCoordinatesByAngle rounded_element =
     [0.20000000000000004; 0.20000000000000004; 0.4; 0.4] /\
   Spec.top_simplified rounded_element = 0.2 /\
   JS.SameValueZero 0.20000000000000004 0.2 = false) /\
  (rotationAngle absorbed_element = 0 /\
   (0 <? height absorbed_element) = true /\
   getYCoordinatesByAngle absorbed_element = [1e16; 1e16; 1e16; 1e16]) /\
  (rotationAngle threshold_element = 0 /\
   isLinkBelowLimit threshold_element = false /\
   Spec.direct (Spec.top_simplified threshold_element)
     (Spec.bottom_simplified threshold_element) threshold_element = true) /\
  (rotationAngle unbounded_element = 0 /\
   getYCoordinatesByAngle unbounded_element = [nan; nan; nan; nan] /\
   isLinkBelowLimit unbounded_element = false /\
   Spec.direct (Spec.top_simplified unbounded_element)
     (Spec.bottom_simplified unbounded_element) unbounded_element = true).
Proof.
  pose proof Reference_conforming as HM.
  pose proof (unbounded_result HM) as [Hu1 Hu2].
  split; [|split; [|split]].
  - split; [reflexivity|]. split; [exact (rounded_corners HM)|].
    split; reflexivity.
  - split; [reflexivity|]. split; [reflexivity|].
    exact (absorbed_corners HM).
  - split; [reflexivity|]. split; [exact (threshold_result HM)|].
    reflexivity.
  - split; [reflexivity|]. split; [exact Hu1|]. split; [exact Hu2|].
    reflexivity.
Qed.

(** C10 as stated fails, for every conforming engine and here for the
    reference one.  At the rotation angle 1e308 the product with [Math.PI]
    overflows, the sine of infinity is NaN, and so are the four corners of a
    point at y = 700: none equals y, and the function answers false
    although the link has a url, y + DANGER_ZONE_HEIGHT exceeds the limit
    and y is truthy.  The same happens when the rotation angle is NaN. *)
Lemma point_counterexample :
  (width spinning_point = 0 /\ height spinning_point = 0 /\
   Spec.radians spinning_point = infinity /\
   getYCoordinatesByAngle spinning_point = [nan; nan; nan; nan] /\
   Spec.has_link_url spinning_point = true /\
   JS.gt (y spinning_point + DANGER_ZONE_HEIGHT) limit = true /\
   JS.truthy (y spinning_point) = true /\
   isLinkBelowLimit spinning_point = false) /\
  (width nan_point = 0 /\ height nan_point = 0 /\
   getYCoordinatesByAngle nan_point = [nan; nan; nan; nan] /\
   Spec.has_link_url nan_point = true /\
   JS.gt (y nan_point + DANGER_ZONE_HEIGHT) limit = true /\
   JS.truthy (y nan_point) = true /\
   isLinkBelowLimit nan_point = false).
Proof.
  pose proof Reference_conforming as HM.
  pose proof (spinning_result HM) as [Hs1 Hs2].
  pose proof (nan_point_result HM) as [Hn1 Hn2].
  split.
  - do 3 (split; [reflexivity|]). split; [exact Hs1|].
    do 3 (split; [reflexivity|]). exact Hs2.
  - do 2 (split; [reflexivity|]). split; [exact Hn1|].
    do 3 (split; [reflexivity|]). exact Hn2.
Qed.

End Instances.

(** ** Order on binary64 numbers *)

Module FloatOrder.

Lemma ltb_leb (a b : float) : (a <? b) = true -> (a <=? b) = true.
Proof.
  rewrite ltb_spec, leb_spec. unfold SFltb, SFleb.
  now destruct (SFcompare (Prim2SF a) (Prim2SF b)) as [[| |]|].
Qed.

Lemma SFcompare_antisym (A B : spec_float) :
  SFcompare B A = option_map CompOpp (SFcompare A B).
Proof.
  destruct A as [sa|sa| |sa ma ea], B as [sb|sb| |sb mb eb];
    cbn [SFcompare option_map]; try reflexivity;
    try (destruct sa; reflexivity); try (destruct sb; reflexivity);
    try (destruct sa, sb; reflexivity).
  rewrite (Z.compare_antisym ea eb).
  pose proof (Pos.compare_cont_antisym ma mb Eq) as H. cbn [CompOpp] in H.
  destruct sa, sb; try reflexivity;
    destruct (Z.compare ea eb); cbn [CompOpp]; try reflexivity;
    rewrite <- H; now destruct (Pos.compare_cont Eq ma mb).
Qed.

Lemma ltb_asym (a b : float) : (a <? b) = true -> (b <? a) = false.
Proof.
  rewrite !ltb_spec. unfold SFltb.
  rewrite (SFcompare_antisym (Prim2SF a) (Prim2SF b)).
  now destruct (SFcompare (Prim2SF a) (Prim2SF b)) as [[| |]|].
Qed.

Lemma ltb_not_nan_r (a b : float) : (a <? b) = true -> is_nan b = false.
Proof.
  intros H. destruct (is_nan b) eqn:Hb; [|reflexivity].
  apply FloatFacts.is_nan_eq in Hb. subst b.
  now rewrite FloatFacts.ltb_nan_r in H.
Qed.

(** Between two numbers of which the second is not a zero, "not greater"
    and "not less" leave equality. *)
Lemma leb_not_ltb (a b : float) :
  (a <=? b) = true -> (a <? b) = false -> is_zero b = false -> a = b.
Proof.
  rewrite leb_spec, ltb_spec. unfold SFleb, SFltb. intros Hle Hlt Hz.
  destruct (SFcompare (Prim2SF a) (Prim2SF b)) as [[| |]|] eqn:E;
    try discriminate.
  apply FloatFacts.SFcompare_Eq in E. destruct E as [E | [s [s' [_ E]]]].
  - now apply Prim2SF_inj.
  - assert (is_zero b = true) by (apply FloatFacts.is_zero_spec; eauto).
    congruence.
Qed.

Lemma three_ltb_one_ltb (s : float) : (3 <? s) = true -> (1 <? s) = true.
Proof.
  rewrite !ltb_spec.
  change (Prim2SF 3) with (S754_finite false 6755399441055744 (-51)).
  change (Prim2SF 1) with (S754_finite false 4503599627370496 (-52)).
  unfold SFltb. destruct (Prim2SF s) as [ss|ss| |ss m e]; cbn [SFcompare];
    try (intros H; exact H).
  destruct ss; [intros H; exact H|].
  destruct (Z.compare_spec (-51) e) as [<-|Hlt|Hgt]; try discriminate.
  - intros _. reflexivity.
  - intros _.
    destruct (Z.compare_spec (-52) e) as [He|He|He]; try reflexivity; lia.
Qed.

End FloatOrder.

(** ** The thumbnail size control *)

Section Zoom.

Import ThumbnailSizeControl.

Lemma max_step_min (s : float) :
  Ecma.max_step min s = if 1 <? s then s else 1.
Proof.
  unfold Ecma.max_step.
  change (Ecma.is_negative_zero min) with false.
  now rewrite andb_false_r.
Qed.

Lemma min_step_max (m : float) :
  Ecma.min_step max m = if m <? 3 then m else 3.
Proof.
  unfold Ecma.min_step.
  change (Ecma.is_positive_zero max) with false.
  now rewrite andb_false_r.
Qed.

(** The clamp, with the library calls evaluated. *)
Lemma updateRangeValue_cases (value addition : float) :
  updateRangeValue value addition =
  let s := value + addition in
  if is_nan s then nan
  else
    let m := if 1 <? s then s else 1 in
    if m <? 3 then m else 3.
Proof.
  unfold updateRangeValue, Ecma.Math_min, Ecma.Math_max.
  cbn [existsb fold_left].
  change (is_nan min) with false. change (is_nan max) with false.
  change (Ecma.max_step neg_infinity min) with min.
  change (Ecma.min_step infinity max) with max.
  cbn [orb]. rewrite orb_false_r.
  destruct (is_nan (value + addition)) eqn:Hs; cbn zeta.
  - reflexivity.
  - rewrite max_step_min, orb_false_r.
    assert (Hm : is_nan (if 1 <? value + addition then value + addition else 1)
                 = false)
      by (destruct (1 <? value + addition); [exact Hs | reflexivity]).
    rewrite Hm. apply min_step_max.
Qed.

(** X1: the value [updateRangeValue] passes on is NaN when value + addition
    is NaN, and otherwise lies between [min] and [max]. *)
Theorem updateRangeValue_bounds (value addition : float) :
  (is_nan (value + addition) = true ->
   is_nan (updateRangeValue value addition) = true) /\
  (is_nan (value + addition) = false ->
   (min <=? updateRangeValue value addition) = true /\
   (updateRangeValue value addition <=? max) = true).
Proof.
  rewrite updateRangeValue_cases. cbn zeta. split; intros Hs; rewrite Hs.
  - reflexivity.
  - destruct (1 <? value + addition) eqn:H1.
    + destruct (value + addition <? 3) eqn:H3.
      * split; now apply FloatOrder.ltb_leb.
      * split; reflexivity.
    + split; reflexivity.
Qed.

(** X2: [updateRangeValue] clamps: below [min] it gives [min], above [max]
    it gives [max], and in between it gives value + addition unchanged. *)
Theorem updateRangeValue_clamps (value addition : float) :
  ((value + addition <? min) = true ->
   updateRangeValue value addition = min) /\
  ((max <? value + addition) = true ->
   updateRangeValue value addition = max) /\
  ((min <=? value + addition) = true -> (value + addition <=? max) = true ->
   updateRangeValue value addition = value + addition).
Proof.
  rewrite updateRangeValue_cases. cbn zeta. unfold min, max.
  set (s := value + addition). split; [|split].
  - intros H.
    assert (Hn : is_nan s = false).
    { destruct (is_nan s) eqn:E; [|reflexivity].
      apply FloatFacts.is_nan_eq in E. rewrite E in H. discriminate H. }
    rewrite Hn, (FloatOrder.ltb_asym _ _ H). reflexivity.
  - intros H.
    rewrite (FloatOrder.ltb_not_nan_r _ _ H),
      (FloatOrder.three_ltb_one_ltb _ H), (FloatOrder.ltb_asym _ _ H).
    reflexivity.
  - intros Hlo Hhi.
    assert (Hn : is_nan s = false).
    { destruct (is_nan s) eqn:E; [|reflexivity].
      apply FloatFacts.is_nan_eq in E. rewrite E in Hhi. discriminate Hhi. }
    rewrite Hn. destruct (1 <? s) eqn:H1.
    + destruct (s <? 3) eqn:H3; [reflexivity|].
      symmetry. now apply FloatOrder.leb_not_ltb.
    + assert (Hs : 1 = s)
        by (apply FloatOrder.leb_not_ltb; [exact Hlo | exact H1 |];
            destruct (is_zero s) eqn:Hz; [|reflexivity];
            rewrite leb_spec in Hlo;
            apply FloatFacts.is_zero_spec in Hz; destruct Hz as [z Hz];
            rewrite Hz in Hlo; discriminate Hlo).
      rewrite <- Hs. reflexivity.
Qed.

Lemma setZoomLevel_levels (z : float) (ev : GridView.Event) :
  In z GridView.levels -> GridView.from_range ev ->
  In (GridView.setZoomLevel z ev) GridView.levels.
Proof.
  intros Hz Hev. destruct ev as [| |v]; [| |exact Hev];
    destruct Hz as [<-|[<-|[<-|[]]]]; cbn; auto.
Qed.

(** X3: from the initial zoom level, whatever the clicks on the two buttons
    and the changes of the range input to one of its levels, the zoom level
    is 1, 2 or 3; there a button is disabled exactly when a click on it
    would leave the zoom level as it is, a click on an enabled button moves
    the zoom level by exactly one step, and the value text is Small or
    Large exactly when the decreasing or the increasing button is
    disabled. *)
Theorem zoomLevel_invariant (events : list GridView.Event) :
  Forall GridView.from_range events ->
  let z := fold_left GridView.setZoomLevel events GridView.initialZoomLevel in
  In z GridView.levels /\
  (if decreaseDisabled z
   then GridView.setZoomLevel z GridView.DecreaseClick = z
   else GridView.setZoomLevel z GridView.DecreaseClick = z - step) /\
  (if increaseDisabled z
   then GridView.setZoomLevel z GridView.IncreaseClick = z
   else GridView.setZoomLevel z GridView.IncreaseClick = z + step) /\
  valueText z
  = (if decreaseDisabled z then "Small"
     else if increaseDisabled z then "Large" else "Medium")%string.
Proof.
  intros Hev z.
  assert (Hz : In z GridView.levels).
  { unfold z.
    assert (H0 : In GridView.initialZoomLevel GridView.levels)
      by (right; left; reflexivity).
    revert H0. generalize GridView.initialZoomLevel.
    induction Hev as [|ev events Hhd _ IH]; intros z0 H0; cbn [fold_left].
    - exact H0.
    - apply IH. now apply setZoomLevel_levels. }
  split; [exact Hz|].
  destruct Hz as [<-|[<-|[<-|[]]]]; repeat split; reflexivity.
Qed.

End Zoom.

(** ** The rendered pages *)

Section Rendering.

Context {C : Constants} {F : PagePreviewFrame}.

Variable currentPageIndex : Z.
Variable zoomLevel : float.

Local Open Scope Z_scope.

Let width : float :=
  (zoomLevel * GridView.PREVIEW_WIDTH + THUMB_FRAME_WIDTH)%float.
Let height : float :=
  (zoomLevel * GridView.PREVIEW_HEIGHT + THUMB_FRAME_HEIGHT)%float.

Lemma separators_cons (nodes : list GridView.Node)
    (rest : list (list GridView.Node)) :
  GridView.separators (nodes :: rest) =
  GridView.separators [nodes] ++ GridView.separators rest.
Proof.
  unfold GridView.separators. cbn [List.concat].
  now rewrite app_nil_r, flat_map_app.
Qed.

Lemma previews_cons (nodes : list GridView.Node)
    (rest : list (list GridView.Node)) :
  GridView.previews (nodes :: rest) =
  GridView.previews [nodes] ++ GridView.previews rest.
Proof.
  unfold GridView.previews. cbn [List.concat].
  now rewrite app_nil_r, flat_map_app.
Qed.

Lemma item_positions_cons (nodes : list GridView.Node)
    (rest : list (list GridView.Node)) :
  GridView.item_positions (nodes :: rest) =
  GridView.item_positions [nodes] ++ GridView.item_positions rest.
Proof.
  unfold GridView.item_positions. cbn [List.concat].
  now rewrite app_nil_r, flat_map_app.
Qed.

Lemma separators_renderPage (page : GridView.Page) (k : Z) :
  k <> 0 ->
  GridView.separators [GridView.renderPage currentPageIndex zoomLevel page k]
  = [ {| PageSeparator.position := k + 1;
         PageSeparator.width := (width / 2)%float;
         PageSeparator.height := height;
         PageSeparator.isFirst := false |} ].
Proof.
  intros Hk. apply Z.eqb_neq in Hk.
  unfold GridView.renderPage. rewrite Hk. reflexivity.
Qed.

Lemma separators_renderPage_first (page : GridView.Page) :
  GridView.separators [GridView.renderPage currentPageIndex zoomLevel page 0]
  = [ {| PageSeparator.position := 0;
         PageSeparator.width := (width / 2)%float;
         PageSeparator.height := height;
         PageSeparator.isFirst := true |};
      {| PageSeparator.position := 0 + 1;
         PageSeparator.width := (width / 2)%float;
         PageSeparator.height := height;
         PageSeparator.isFirst := false |} ].
Proof. reflexivity. Qed.

(** The separators after the first page: one per page, at the slot that
    follows it. *)
Lemma separators_from (k : Z) (pages : list GridView.Page) :
  0 < k ->
  let seps :=
    GridView.separators
      (Ecma.map_from (GridView.renderPage currentPageIndex zoomLevel) k pages)
  in
  map PageSeparator.position seps
    = map (fun j => k + 1 + Z.of_nat j) (seq 0 (List.length pages)) /\
  map PageSeparator.isFirst seps = repeat false (List.length pages) /\
  Forall (fun p => PageSeparator.width p = (width / 2)%float /\
                   PageSeparator.height p = height) seps.
Proof.
  revert k. induction pages as [|page pages IH]; intros k Hk.
  - repeat split. constructor.
  - cbn [Ecma.map_from]. cbv zeta.
    rewrite separators_cons, separators_renderPage by lia.
    destruct (IH (k + 1) ltac:(lia)) as [IH1 [IH2 IH3]].
    cbn [app map List.length seq repeat
           PageSeparator.position PageSeparator.isFirst].
    rewrite IH1, IH2. split; [|split].
    + f_equal; [lia|]. rewrite <- seq_shift, map_map.
      apply map_ext. intros j. lia.
    + reflexivity.
    + constructor; [split; reflexivity | exact IH3].
Qed.

(** X4: with no page the wrapper of the grid has no child, neither a
    separator, not even the one of position 0, nor a preview; otherwise the
    separators, in document order, stand at the positions 0, 1, ..., n of
    the n pages, one per slot, only the one at position 0 is the first, and
    each has half the width and the full height of a preview. *)
Theorem separators_cover_slots (pages : list GridView.Page) :
  let seps :=
    GridView.separators (GridView.children pages currentPageIndex zoomLevel)
  in
  (pages = [] ->
   GridView.children pages currentPageIndex zoomLevel = []) /\
  (pages <> [] ->
   map PageSeparator.position seps
     = map Z.of_nat (seq 0 (S (List.length pages))) /\
   map PageSeparator.isFirst seps
     = true :: repeat false (List.length pages) /\
   Forall (fun p => PageSeparator.width p = (width / 2)%float /\
                    PageSeparator.height p = height) seps).
Proof.
  cbv zeta. split; [intros ->; reflexivity|].
  destruct pages as [|page pages]; [congruence|]. intros _.
  unfold GridView.children, Ecma.Array_map. cbn [Ecma.map_from].
  rewrite separators_cons, separators_renderPage_first.
  destruct (separators_from (0 + 1) pages ltac:(lia)) as [H1 [H2 H3]].
  cbn [app map List.length seq repeat
         PageSeparator.position PageSeparator.isFirst].
  rewrite H1, H2. split; [|split].
  - do 2 f_equal. rewrite <- seq_shift, <- seq_shift, !map_map.
    apply map_ext. intros j. lia.
  - reflexivity.
  - repeat (constructor; [split; reflexivity|]). exact H3.
Qed.

Lemma previews_renderPage (page : GridView.Page) (k : Z) :
  GridView.previews [GridView.renderPage currentPageIndex zoomLevel page k]
  = [ {| PagePreview.ariaLabel :=
           if k =? currentPageIndex
           then {| PagePreview.message := "Page %s (current page)";
                   PagePreview.argument := k + 1 |}
           else {| PagePreview.message := "Page %s";
                   PagePreview.argument := k + 1 |};
         PagePreview.isActive := k =? currentPageIndex;
         PagePreview.index := k;
         PagePreview.width := width;
         PagePreview.height := height;
         PagePreview.dragIndicatorOffset := (GridView.GRID_GAP / 2)%float |} ]
  /\ GridView.item_positions
       [GridView.renderPage currentPageIndex zoomLevel page k] = [k].
Proof. unfold GridView.renderPage. destruct (k =? 0); split; reflexivity. Qed.

(** A preview is well formed when it is active exactly at the current page,
    is labelled with its one-based number, as the current page when it is
    active, and has the size computed from the zoom level. *)
Let well_formed (p : PagePreview.props) : Prop :=
  PagePreview.isActive p = (PagePreview.index p =? currentPageIndex) /\
  PagePreview.argument (PagePreview.ariaLabel p) = PagePreview.index p + 1 /\
  PagePreview.message (PagePreview.ariaLabel p)
    = (if PagePreview.isActive p
       then "Page %s (current page)" else "Page %s")%string /\
  PagePreview.width p = width /\ PagePreview.height p = height.

Lemma previews_from (k : Z) (pages : list GridView.Page) :
  let rendered :=
    Ecma.map_from (GridView.renderPage currentPageIndex zoomLevel) k pages in
  map PagePreview.index (GridView.previews rendered)
    = map (fun j => k + Z.of_nat j) (seq 0 (List.length pages)) /\
  GridView.item_positions rendered
    = map (fun j => k + Z.of_nat j) (seq 0 (List.length pages)) /\
  map PagePreview.index
    (filter PagePreview.isActive (GridView.previews rendered))
    = (if (k <=? currentPageIndex)
          && (currentPageIndex <? k + Z.of_nat (List.length pages))
       then [currentPageIndex] else []) /\
  Forall well_formed (GridView.previews rendered).
Proof.
  revert k. induction pages as [|page pages IH]; intros k.
  - cbv zeta. cbn [Ecma.map_from List.length seq map].
    repeat split; try constructor.
    cbn. destruct (k <=? currentPageIndex) eqn:H1; [|reflexivity].
    destruct (currentPageIndex <? k + 0) eqn:H2; [|reflexivity].
    apply Z.leb_le in H1. apply Z.ltb_lt in H2. lia.
  - cbv zeta. cbn [Ecma.map_from].
    rewrite previews_cons, item_positions_cons.
    destruct (previews_renderPage page k) as [-> ->].
    destruct (IH (k + 1)) as [IH1 [IH2 [IH3 IH4]]].
    assert (Hshift : map (fun j => k + 1 + Z.of_nat j)
                       (seq 0 (List.length pages))
                     = map (fun j => k + Z.of_nat j)
                         (seq 1 (List.length pages))).
    { rewrite <- seq_shift, map_map. apply map_ext. intros j. lia. }
    cbn [app map filter List.length seq PagePreview.index PagePreview.isActive].
    rewrite IH1, IH2, Hshift, Z.add_0_r. split; [reflexivity|].
    split; [reflexivity|]. split.
    + destruct (k =? currentPageIndex) eqn:Hk.
      * apply Z.eqb_eq in Hk. cbn [map PagePreview.index].
        rewrite IH3.
        assert (H1 : (k + 1 <=? currentPageIndex) = false)
          by (apply Z.leb_gt; lia).
        assert (H2 : (k <=? currentPageIndex) = true)
          by (apply Z.leb_le; lia).
        assert (H3 : (currentPageIndex
                        <? k + Z.of_nat (S (List.length pages))) = true)
          by (apply Z.ltb_lt; lia).
        rewrite H1, H2, H3. cbn [andb]. now subst k.
      * apply Z.eqb_neq in Hk. rewrite IH3.
        assert (H1 : (k + 1 <=? currentPageIndex) = (k <=? currentPageIndex)).
        { destruct (Z.leb_spec (k + 1) currentPageIndex),
            (Z.leb_spec k currentPageIndex); try reflexivity; lia. }
        assert (H2 : (currentPageIndex <? k + 1 + Z.of_nat (List.length pages))
                     = (currentPageIndex
                          <? k + Z.of_nat (S (List.length pages)))).
        { f_equal. lia. }
        now rewrite H1, H2.
    + constructor; [|exact IH4].
      unfold well_formed. cbn.
      repeat split; now destruct (k =? currentPageIndex).
Qed.

(** X5: the previews, in document order, have the indices 0, ..., n - 1 of
    the n pages, each inside an item at that position; exactly the preview
    at the current page index is active, and none when that index is not the
    index of a page; each preview is labelled with its number counted from
    one, as the current page exactly when it is active, and all have the
    same size. *)
Theorem previews_follow_pages (pages : list GridView.Page) :
  let rendered := GridView.children pages currentPageIndex zoomLevel in
  map PagePreview.index (GridView.previews rendered)
    = map Z.of_nat (seq 0 (List.length pages)) /\
  GridView.item_positions rendered
    = map Z.of_nat (seq 0 (List.length pages)) /\
  map PagePreview.index
    (filter PagePreview.isActive (GridView.previews rendered))
    = (if (0 <=? currentPageIndex)
          && (currentPageIndex <? Z.of_nat (List.length pages))
       then [currentPageIndex] else []) /\
  Forall
    (fun p =>
       PagePreview.isActive p = (PagePreview.index p =? currentPageIndex) /\
       PagePreview.argument (PagePreview.ariaLabel p)
         = PagePreview.index p + 1 /\
       PagePreview.message (PagePreview.ariaLabel p)
         = (if PagePreview.isActive p
            then "Page %s (current page)" else "Page %s")%string /\
       PagePreview.width p = width /\ PagePreview.height p = height)
    (GridView.previews rendered).
Proof.
  cbv zeta. unfold GridView.children, Ecma.Array_map.
  destruct (previews_from 0 pages) as [H1 [H2 [H3 H4]]].
  rewrite H1, H2, H3. repeat split; try exact H4.
Qed.

End Rendering.

(** ** Reordering *)

Section Reorder.

Local Open Scope Z_scope.

(** X6: when the old position is not the index of a page (always so with no
    page), [onPositionChange] throws a TypeError and dispatches nothing;
    otherwise it dispatches [arrangePage], for the page at the old position
    and the new position as given, and then [setCurrentPage] for the same
    page, and nothing else. *)
Theorem onPositionChange_dispatches (pages : list GridView.Page)
    (oldPos newPos : Z) (log : list Effect.Action) :
  (oldPos < 0 \/ Z.of_nat (List.length pages) <= oldPos ->
   GridView.onPositionChange pages oldPos newPos log
   = (Effect.Throw_TypeError, log)) /\
  (forall page : GridView.Page,
     0 <= oldPos -> nth_error pages (Z.to_nat oldPos) = Some page ->
     GridView.onPositionChange pages oldPos newPos log
     = (Effect.Normal tt,
        log ++ [Effect.arrangePage (GridView.id page) newPos;
                Effect.setCurrentPage (GridView.id page)])).
Proof.
  unfold GridView.onPositionChange, Effect.bind, Ecma.Array_get. split.
  - intros H. destruct (oldPos <? 0) eqn:Hneg; [reflexivity|].
    apply Z.ltb_ge in Hneg.
    assert (Hnone : nth_error pages (Z.to_nat oldPos) = None)
      by (apply nth_error_None; lia).
    now rewrite Hnone.
  - intros page Hpos Hnth.
    assert (Hneg : (oldPos <? 0) = false) by (apply Z.ltb_ge; lia).
    rewrite Hneg, Hnth.
    unfold Effect.member, Effect.ret, Effect.dispatch.
    now rewrite <- app_assoc.
Qed.

End Reorder.

(** ** Signs and infinities *)

Module FloatSigns.

Lemma opp_involutive (x : float) : - - x = x.
Proof.
  apply Prim2SF_inj. rewrite !opp_spec.
  destruct (Prim2SF x) as [s|s| |s m e]; cbn [SFopp];
    now rewrite ?negb_involutive.
Qed.

Lemma SFdiv_opp_l (X Y : spec_float) :
  SF64div (SFopp X) Y = SFopp (SF64div X Y).
Proof.
  destruct X as [sx|sx| |sx mx ex], Y as [sy|sy| |sy my ey];
    cbn [SFopp SF64div SFdiv]; try reflexivity;
    try (now destruct sx, sy).
  destruct (SFdiv_core_binary prec emax (Z.pos mx) ex (Z.pos my) ey)
    as [[mz ez] lz].
  rewrite Rounding.binary_round_aux_opp. now destruct sx, sy.
Qed.

Lemma div_opp_l (x d : float) : - x / d = - (x / d).
Proof.
  apply Prim2SF_inj. now rewrite opp_spec, !div_spec, opp_spec, SFdiv_opp_l.
Qed.

Lemma add_infinity_l (s : bool) (x b : float) :
  Prim2SF x = S754_infinity s -> is_finite b = true -> x + b = x.
Proof.
  intros Hx Hb. apply Prim2SF_inj. rewrite add_spec, Hx.
  apply FloatFacts.is_finite_spec in Hb.
  destruct Hb as [[z ->]|[z [m [e ->]]]]; reflexivity.
Qed.

Lemma ltb_infinity (l : float) :
  is_finite l = true -> (l <? infinity) = true.
Proof.
  intros Hl. rewrite ltb_spec.
  change (Prim2SF infinity) with (S754_infinity false).
  apply FloatFacts.is_finite_spec in Hl.
  destruct Hl as [[z ->]|[z [m [e ->]]]]; reflexivity.
Qed.

Lemma ltb_neg_infinity (l : float) : (l <? neg_infinity) = false.
Proof.
  rewrite ltb_spec. change (Prim2SF neg_infinity) with (S754_infinity true).
  now destruct (Prim2SF l) as [z|[|]| |z m e].
Qed.

End FloatSigns.

(** ** Elements at infinity, elements mirrored *)

Section Extremes.

Context {C : Constants} {M : Math}.

Lemma corners_infinite_y (e : Element) (s : bool) :
  Conforming M ->
  Prim2SF (y e) = S754_infinity s ->
  is_zero (rotationAngle e) = true ->
  is_finite (width e) = true ->
  is_finite (height e) = true ->
  Forall (fun c => JS.SameValueZero c (y e) = true)
    (getYCoordinatesByAngle e).
Proof.
  intros HM Hy Hrot Hw Hh.
  pose proof (corners_unrotated e HM Hrot Hw) as Hc.
  pose proof (FloatFacts.div_two_finite _ Hh) as Hh2.
  assert (Ht : Spec.top e = y e).
  { unfold Spec.top.
    rewrite FloatFacts.sub_add_opp, (FloatSigns.add_infinity_l s _ _ Hy Hh).
    apply (FloatSigns.add_infinity_l s _ _ Hy).
    now apply FloatFacts.opp_is_finite. }
  assert (Hb : Spec.bottom e = y e).
  { unfold Spec.bottom.
    rewrite (FloatSigns.add_infinity_l s _ _ Hy Hh).
    now apply (FloatSigns.add_infinity_l s _ _ Hy). }
  rewrite Ht, Hb in Hc. unfold getYCoordinatesByAngle in *.
  inversion Hc as [|? ? ? ? H1 Hc1]; subst.
  inversion Hc1 as [|? ? ? ? H2 Hc2]; subst.
  inversion Hc2 as [|? ? ? ? H3 Hc3]; subst.
  inversion Hc3 as [|? ? ? ? H4 Hc4]; subst.
  repeat constructor; assumption.
Qed.

(** X7: for an element that is not rotated, of finite width and height and
    with a non-empty link url, and a finite page geometry,
    [isLinkBelowLimit] is true at y = +Infinity and false at
    y = -Infinity. *)
Theorem isLinkBelowLimit_infinite_y (e : Element) :
  Conforming M ->
  Spec.has_link_url e = true ->
  is_zero (rotationAngle e) = true ->
  is_finite (width e) = true ->
  is_finite (height e) = true ->
  is_finite DANGER_ZONE_HEIGHT = true ->
  is_finite limit = true ->
  (y e = infinity -> isLinkBelowLimit e = true) /\
  (y e = neg_infinity -> isLinkBelowLimit e = false).
Proof.
  intros HM Hl Hrot Hw Hh Hdz Hlim.
  rewrite isLinkBelowLimit_guard, Hl. cbn [andb]. split; intros Hy.
  - assert (Hs : Prim2SF (y e) = S754_infinity false) by now rewrite Hy.
    pose proof (corners_infinite_y e false HM Hs Hrot Hw Hh) as Hc.
    unfold getYCoordinatesByAngle in *.
    rewrite (Boolean_find_same _ _ _ Hc), Hy.
    unfold exceeds, JS.gt.
    rewrite (FloatSigns.add_infinity_l false infinity _ eq_refl Hdz).
    now rewrite (FloatSigns.ltb_infinity _ Hlim).
  - assert (Hs : Prim2SF (y e) = S754_infinity true) by now rewrite Hy.
    pose proof (corners_infinite_y e true HM Hs Hrot Hw Hh) as Hc.
    unfold getYCoordinatesByAngle in *.
    rewrite (Boolean_find_same _ _ _ Hc), Hy.
    unfold exceeds, JS.gt.
    rewrite (FloatSigns.add_infinity_l true neg_infinity _ eq_refl Hdz).
    now rewrite FloatSigns.ltb_neg_infinity.
Qed.

(** X8: negating the width of an element exchanges the two upper corners
    and the two bottom corners of [getYCoordinatesByAngle], and leaves
    [isLinkBelowLimit] unchanged (for a page geometry whose danger zone
    alone does not exceed the limit). *)
Theorem isLinkBelowLimit_mirrored (e e' : Element) :
  y e' = y e -> width e' = - width e -> height e' = height e ->
  rotationAngle e' = rotationAngle e -> link e' = link e ->
  (exists ul ur br bl,
     getYCoordinatesByAngle e = [ul; ur; br; bl] /\
     getYCoordinatesByAngle e' = [ur; ul; bl; br]) /\
  (JS.gt DANGER_ZONE_HEIGHT limit = false ->
   isLinkBelowLimit e' = isLinkBelowLimit e).
Proof.
  intros Hy Hw Hh Hr Hl.
  assert (Hc : getYCoordinatesByAngle e' =
               match getYCoordinatesByAngle e with
               | [ul; ur; br; bl] => [ur; ul; bl; br]
               | l => l
               end).
  { unfold getYCoordinatesByAngle. rewrite Hy, Hw, Hh, Hr.
    rewrite !FloatFacts.div_neg_two, !FloatSigns.div_opp_l,
      !FloatSigns.opp_involutive.
    reflexivity. }
  split.
  - unfold getYCoordinatesByAngle in *. do 4 eexists. split; [reflexivity|].
    exact Hc.
  - intros Hgeo. rewrite !isLinkBelowLimit_guard.
    unfold Spec.has_link_url. rewrite Hl. f_equal.
    rewrite !(Boolean_find_existsb _ Hgeo), Hc.
    unfold getYCoordinatesByAngle. cbn [existsb].
    rewrite !orb_false_r.
    repeat match goal with
           | |- context [exceeds ?c] =>
               let b := fresh "b" in
               generalize (exceeds c); intros b
           end.
    repeat match goal with b : bool |- _ => destruct b end; reflexivity.
Qed.

End Extremes.

(** ** The further theorems at concrete inputs *)

Section MoreInstances.

#[local] Existing Instance Reference.math.
#[local] Existing Instance scenario_constants.

Lemma zoomLevel_invariant_witness :
  In (fold_left GridView.setZoomLevel
        [GridView.IncreaseClick; GridView.IncreaseClick;
         GridView.RangeChange 1; GridView.DecreaseClick;
         GridView.IncreaseClick]
        GridView.initialZoomLevel)
     GridView.levels.
Proof.
  refine (proj1 (zoomLevel_invariant
                   [GridView.IncreaseClick; GridView.IncreaseClick;
                    GridView.RangeChange 1; GridView.DecreaseClick;
                    GridView.IncreaseClick] _)).
  repeat constructor.
Defined.

Lemma isLinkBelowLimit_infinite_y_witness :
  isLinkBelowLimit
    {| y := infinity; width := 100; height := 100; rotationAngle := 0;
       link := example_link |} = true.
Proof.
  refine (proj1 (isLinkBelowLimit_infinite_y
                   {| y := infinity; width := 100; height := 100;
                      rotationAngle := 0; link := example_link |}
                   Reference_conforming eq_refl eq_refl eq_refl eq_refl
                   eq_refl eq_refl) eq_refl).
Defined.

Lemma isLinkBelowLimit_mirrored_witness :
  isLinkBelowLimit
    {| y := 500; width := -100; height := 100; rotationAngle := 30;
       link := example_link |}
  = isLinkBelowLimit
      {| y := 500; width := 100; height := 100; rotationAngle := 30;
         link := example_link |}.
Proof.
  refine (proj2 (isLinkBelowLimit_mirrored
                   {| y := 500; width := 100; height := 100;
                      rotationAngle := 30; link := example_link |}
                   {| y := 500; width := -100; height := 100;
                      rotationAngle := 30; link := example_link |}
                   eq_refl eq_refl eq_refl eq_refl eq_refl) eq_refl).
Defined.

End MoreInstances.

(** ** Rounding is monotone

    The library's rounding of a sum and of a product, read on the exact
    integer value: the result is the value rounded to nearest even at the
    exponent its magnitude commands, and that is a monotone function of the
    value. *)

Module ExactFacts.

Import Exact.

Local Open Scope Z_scope.
















Lemma tail_nonneg (mrs : shr_record) : 0 <= shr_m mrs -> 0 <= tail mrs.
Proof. unfold tail. destruct (shr_r mrs); cbn [Z.b2z]; lia. Qed.





(** *** The rounding of the library computes [rnd] *)

Lemma fexp_eq (x : Z) : fexp prec emax x = Z.max (x - 53) (-1074).
Proof. reflexivity. Qed.



(** *** Numbers that are neither NaN nor infinite *)

Lemma bounded_facts (m : positive) (e : Z) :
  bounded prec emax m e = true ->
  -1074 <= e <= 971 /\ Z.pos m < 2 ^ 53 /\
  (-1074 < e -> 2 ^ 52 <= Z.pos m) /\
  Z.max (Z.pos (digits2_pos m) + e - 53) (-1074) = e.
Proof.
  intros H. apply Rounding.canonical_fexp in H. destruct H as [H1 H2].
  rewrite fexp_eq in H1. change (emax - prec) with 971 in H2.
  pose proof (Rounding.digits2_pos_lower m) as Dl.
  pose proof (Rounding.digits2_pos_upper m) as Du.
  set (d := Z.pos (digits2_pos m)) in *.
  split; [lia|]. split; [|split; [|exact H1]].
  - assert (2 ^ d <= 2 ^ 53) by (apply Z.pow_le_mono_r; lia). lia.
  - intros He. replace (d - 1) with 52 in Dl by lia. exact Dl.
Qed.

Lemma top_pos (K : Z) : 1074 <= K -> 0 < top K.
Proof. intros HK. apply Z.pow_pos_nonneg; lia. Qed.

Lemma value_bounds (K : Z) (m : positive) (e : Z) :
  1074 <= K -> bounded prec emax m e = true ->
  0 < Z.pos m * 2 ^ (e + K) < top K.
Proof.
  intros HK H. apply bounded_facts in H. destruct H as [He [Hm _]].
  assert (P : 0 < 2 ^ (e + K)) by (apply Z.pow_pos_nonneg; lia).
  split; [lia|]. unfold top.
  assert (2 ^ 53 * 2 ^ (e + K) <= 2 ^ (1024 + K)).
  { rewrite <- Z.pow_add_r by lia. apply Z.pow_le_mono_r; lia. }
  nia.
Qed.

Lemma value_compare (K : Z) (m1 : positive) (e1 : Z) (m2 : positive) (e2 : Z) :
  1074 <= K ->
  bounded prec emax m1 e1 = true -> bounded prec emax m2 e2 = true ->
  (Z.pos m1 * 2 ^ (e1 + K) ?= Z.pos m2 * 2 ^ (e2 + K)) =
  match e1 ?= e2 with
  | Lt => Lt
  | Gt => Gt
  | Eq => Pos.compare_cont Eq m1 m2
  end.
Proof.
  intros HK H1 H2. apply bounded_facts in H1, H2.
  destruct H1 as [He1 [Hm1 [Hn1 _]]], H2 as [He2 [Hm2 [Hn2 _]]].
  assert (P1 : 0 < 2 ^ (e1 + K)) by (apply Z.pow_pos_nonneg; lia).
  assert (P2 : 0 < 2 ^ (e2 + K)) by (apply Z.pow_pos_nonneg; lia).
  destruct (Z.compare_spec e1 e2) as [-> | Hlt | Hgt].
  - change (Pos.compare_cont Eq m1 m2) with (Z.pos m1 ?= Z.pos m2).
    destruct (Z.compare_spec (Z.pos m1) (Z.pos m2)) as [E | L | G];
      [apply Z.compare_eq_iff | apply Z.compare_lt_iff
       | apply Z.compare_gt_iff]; nia.
  - apply Z.compare_lt_iff.
    assert (2 ^ 53 * 2 ^ (e1 + K) <= 2 ^ 52 * 2 ^ (e2 + K)).
    { rewrite <- !Z.pow_add_r by lia. apply Z.pow_le_mono_r; lia. }
    pose proof (Hn2 ltac:(lia)). nia.
  - apply Z.compare_gt_iff.
    assert (2 ^ 53 * 2 ^ (e2 + K) <= 2 ^ 52 * 2 ^ (e1 + K)).
    { rewrite <- !Z.pow_add_r by lia. apply Z.pow_le_mono_r; lia. }
    pose proof (Hn1 ltac:(lia)). nia.
Qed.

(** The order of the numbers is the order of their values. *)
Lemma SFcompare_Zv (K : Z) (X Y : spec_float) :
  1074 <= K -> valid_binary X = true -> valid_binary Y = true ->
  X <> S754_nan -> Y <> S754_nan ->
  SFcompare X Y = Some (Zv K X ?= Zv K Y).
Proof.
  intros HK VX VY NX NY. pose proof (top_pos K HK) as Pt.
  destruct X as [sx|sx| |sx mx ex], Y as [sy|sy| |sy my ey];
    try congruence; cbn [SFcompare Zv valid_binary] in *;
    try pose proof (value_bounds K mx ex HK VX) as Bx;
    try pose proof (value_bounds K my ey HK VY) as By;
    f_equal;
    try (solve [ try destruct sx; try destruct sy; cbn [cond_Zopp];
                 first [ reflexivity
                       | symmetry; apply Z.compare_eq_iff; lia
                       | symmetry; apply Z.compare_lt_iff; lia
                       | symmetry; apply Z.compare_gt_iff; lia ] ]).
  pose proof (value_compare K mx ex my ey HK VX VY) as Hc.
  pose proof (value_compare K my ey mx ex HK VY VX) as Hc'.
  destruct sx, sy; cbn [cond_Zopp]; symmetry.
  - rewrite Z.compare_opp, Hc'. rewrite (Z.compare_antisym ex ey).
    change (Pos.compare_cont Eq my mx) with (Pos.compare my mx).
    rewrite (Pos.compare_antisym mx my). unfold Pos.compare.
    destruct (ex ?= ey); reflexivity.
  - apply Z.compare_lt_iff. lia.
  - apply Z.compare_gt_iff. lia.
  - exact Hc.
Qed.





(** *** The value of a sum and of a product *)








End ExactFacts.

(** ** The order of the doubles and their arithmetic

    Sums and products of finite doubles, compared through their values:
    addition is monotone in both terms, multiplication by a number that is
    not negative is monotone and by a negative number antitone, overflow
    included. *)

Module Monotone.

Import Exact ExactFacts.



Lemma not_nan_spec (x : float) : is_nan x = false <-> Prim2SF x <> S754_nan.
Proof.
  rewrite <- FloatFacts.is_nan_spec. now destruct (is_nan x).
Qed.

Lemma compare_value (a b : float) :
  is_nan a = false -> is_nan b = false ->
  SFcompare (Prim2SF a) (Prim2SF b) = Some (value a ?= value b)%Z.
Proof.
  rewrite !not_nan_spec. intros Ha Hb.
  apply SFcompare_Zv; try assumption; try apply Prim2SF_valid. lia.
Qed.

Lemma leb_not_nan (a b : float) :
  (a <=? b) = true -> is_nan a = false /\ is_nan b = false.
Proof.
  rewrite leb_spec. unfold SFleb. intros H.
  split; apply not_nan_spec; intros E; rewrite E in H;
    [|destruct (Prim2SF a)]; discriminate.
Qed.

Lemma leb_value (a b : float) :
  is_nan a = false -> is_nan b = false ->
  (a <=? b) = true <-> (value a <= value b)%Z.
Proof.
  intros Ha Hb. rewrite leb_spec. unfold SFleb.
  rewrite (compare_value a b Ha Hb).
  destruct (Z.compare_spec (value a) (value b)); split;
    intros; try reflexivity; try discriminate; lia.
Qed.






Lemma leb_trans (a b c : float) :
  (a <=? b) = true -> (b <=? c) = true -> (a <=? c) = true.
Proof.
  intros H1 H2.
  destruct (leb_not_nan _ _ H1) as [Na Nb].
  destruct (leb_not_nan _ _ H2) as [_ Nc].
  apply leb_value in H1, H2; try assumption.
  apply leb_value; try assumption. lia.
Qed.


(** *** Sums *)




(** *** Products *)






End Monotone.

(** ** A full turn, within bounds *)

Section Turn.

Context {C : Constants} {M : Math}.








End Turn.

(** ** A full turn at concrete elements *)

Section TurnInstances.

#[local] Existing Instance Reference.math.
#[local] Existing Instance scenario_constants.


(** What the bounds settle.  Between -1 and 1, the least and the greatest a
    sine and a cosine can be, the answer is settled for the element of the
    first scenario, which is below the limit however it is turned, and not
    for an element that reaches across the limit.  Between the values of
    the reference engine before and after a full turn from zero it is
    settled for both, and not for the two elements whose answer the turn
    changes. *)
Lemma settled_examples :
  Bracket.settled unit_bounds scenario_element = true /\
  Bracket.settled unit_bounds overlapping_element = false /\
  Bracket.settled full_turn_bounds overlapping_element = true /\
  Bracket.settled full_turn_bounds wide_element = false /\
  Bracket.settled full_turn_bounds edge_element = false.
Proof. repeat split; reflexivity. Qed.

End TurnInstances.
